(** * Marketplace vehicle-form driver: reconciliation loop and its helpers

    A shallow embedding of [fb_marketplace_vehicle_dom_update.py].  The
    script drives a browser page through Playwright; every answer the page
    gives (a locator count, a click that works or times out, a value read
    back from an input) is an input of the model, collected in one
    environment record per call, and the Python control flow is embedded on
    top of those answers.

    Conventions.
    - A Python [str] is a [string]; a character is read as the code point
      with the same number, so the model covers text in the range 0..255.
    - A Python call that may raise returns an [Outcome].
    - A Python [dict] with string keys is a [gmap string _]. *)

From Stdlib Require Import ZArith NArith String Ascii List Bool Lia.
From Stdlib Require Import Floats.PrimFloat Floats.SpecFloat Floats.FloatOps.
From stdpp Require Import gmap strings list pretty.
Import ListNotations.

Local Open Scope string_scope.
Local Open Scope Z_scope.

(* ===================================================================== *)
(** * Part I: definitions                                                  *)
(* ===================================================================== *)

(** ** Exceptions and fallible calls *)

(** The exceptions the script can meet.  All of them derive from Python's
    [Exception]; [PlaywrightTimeoutError] is the one the loop names. *)
Inductive PyExc :=
| PlaywrightTimeoutError
| PlaywrightError (msg : string)
| KeyError (key : string)
| ValueError
| TypeError
| OverflowError.

Inductive Outcome (A : Type) :=
| Ret (a : A)
| Raise (e : PyExc).
Arguments Ret {A} a.
Arguments Raise {A} e.

Definition obind {A B} (m : Outcome A) (k : A -> Outcome B) : Outcome B :=
  match m with
  | Ret a => k a
  | Raise e => Raise e
  end.

#[global] Instance outcome_ret : MRet Outcome := @Ret.
#[global] Instance outcome_bind : MBind Outcome := fun A B k m => obind m k.

Definition returns {A} (m : Outcome A) : bool :=
  match m with Ret _ => true | Raise _ => false end.

(** ** Python string primitives *)

Module PyStr.

Definition code (c : ascii) : N := N_of_ascii c.

Definition in_range (lo hi : N) (c : ascii) : bool :=
  ((lo <=? code c) && (code c <=? hi))%N.

(** [str.isspace] on one character, also the class [\s] of [re] on [str]
    patterns: TAB..CR, FS..US, space, NEL, NBSP. *)
Definition isspace (c : ascii) : bool :=
  in_range 9 13 c || in_range 28 32 c || (code c =? 133)%N || (code c =? 160)%N.

(** [str.isdigit] on one character: 0..9 and the superscripts 1, 2, 3. *)
Definition isdigit_char (c : ascii) : bool :=
  in_range 48 57 c || (code c =? 178)%N || (code c =? 179)%N || (code c =? 185)%N.

Definition lower_char (c : ascii) : ascii :=
  if in_range 65 90 c || (in_range 192 222 c && negb (code c =? 215)%N)
  then ascii_of_N (code c + 32)
  else c.

Fixpoint lower (s : string) : string :=
  match s with
  | EmptyString => EmptyString
  | String c r => String (lower_char c) (lower r)
  end.

Fixpoint all_digits (s : string) : bool :=
  match s with
  | EmptyString => true
  | String c r => isdigit_char c && all_digits r
  end.

(** [s.isdigit()]: every character is a digit and there is at least one. *)
Definition isdigit (s : string) : bool :=
  match s with
  | EmptyString => false
  | _ => all_digits s
  end.

Fixpoint lstrip (s : string) : string :=
  match s with
  | EmptyString => EmptyString
  | String c r => if isspace c then lstrip r else s
  end.

Fixpoint rstrip (s : string) : string :=
  match s with
  | EmptyString => EmptyString
  | String c r =>
      match rstrip r with
      | EmptyString => if isspace c then EmptyString else String c EmptyString
      | r' => String c r'
      end
  end.

(** [s.strip()] *)
Definition strip (s : string) : string := rstrip (lstrip s).

(** [re.sub(r"\s+", " ", s)]: every maximal run of white space becomes one
    space.  [in_run] tells that the previous character was white space. *)
Fixpoint collapse_from (in_run : bool) (s : string) : string :=
  match s with
  | EmptyString => EmptyString
  | String c r =>
      if isspace c
      then (if in_run then collapse_from true r
            else String " "%char (collapse_from true r))
      else String c (collapse_from false r)
  end.

Definition collapse_ws (s : string) : string := collapse_from false s.

(** [needle in hay] *)
Fixpoint contains (needle hay : string) : bool :=
  String.prefix needle hay ||
  match hay with
  | EmptyString => false
  | String _ r => contains needle r
  end.

End PyStr.

(** ** [enforce_model_input_commit] *)

(** What one labelled container answers while the model text is typed into
    its input.  [rb_input] is [model_input.input_value()], [rb_visible] is
    [read_visible_model_value()] (which already turns an exception into the
    empty string). *)
Record Readback := {
  rb_input : string;
  rb_visible : string;
}.

Inductive Attempt :=
| AttemptRaises
    (* a Playwright call of the [try] block raised before the first
       read-back was complete *)
| AttemptRead (first : Readback) (retry : option Readback).
    (* the first read-back, and what the fallback branch reads after it has
       typed again ([None]: a call of the fallback raised) *)

Record ModelContainer := {
  mc_visible : bool;
  mc_input : option Attempt;   (* [None]: no text input in the container *)
}.

Record ModelPage := {
  strict_match : list ModelContainer;  (* text is exactly the label *)
  loose_match : list ModelContainer;   (* text contains the label *)
}.

(** The local [norm] of [enforce_model_input_commit]. *)
Definition norm (v : string) : string :=
  PyStr.lower (PyStr.strip (PyStr.collapse_ws v)).

(** One turn of the [for] loop after an input was found: [true] is the two
    [return True], [false] falls through to the next container. *)
Definition model_attempt (model_value : string) (a : Attempt) : bool :=
  match a with
  | AttemptRaises => false
  | AttemptRead rb retry =>
      let current := PyStr.strip (rb_input rb) in
      let visible_value := PyStr.strip (rb_visible rb) in
      let current_ok :=
        String.eqb (norm current) (norm model_value) && negb (PyStr.isdigit current) in
      let visible_ok :=
        String.eqb (norm visible_value) (norm model_value)
        && negb (PyStr.isdigit visible_value) in
      if current_ok && visible_ok then true
      else if PyStr.isdigit current || PyStr.isdigit visible_value then
        match retry with
        | None => false
        | Some rb2 =>
            let current2 := PyStr.strip (rb_input rb2) in
            let visible2 := PyStr.strip (rb_visible rb2) in
            String.eqb (norm current2) (norm model_value)
            && String.eqb (norm visible2) (norm model_value)
        end
      else false
  end.

Fixpoint model_scan (model_value : string) (required : bool)
    (active : list ModelContainer) : bool :=
  match active with
  | [] => negb required
  | c :: rest =>
      match mc_input c with
      | None => model_scan model_value required rest
      | Some a =>
          if model_attempt model_value a then true
          else model_scan model_value true rest
      end
  end.

Definition active_containers (containers : list ModelContainer) : list ModelContainer :=
  let visible_containers := List.filter mc_visible containers in
  match visible_containers with
  | [] => containers
  | _ => visible_containers
  end.

Definition enforce_model_input_commit (page : Outcome ModelPage)
    (model_value : string) : Outcome bool :=
  p ← page;
  let containers :=
    match strict_match p with
    | [] => loose_match p
    | _ => strict_match p
    end in
  match containers with
  | [] => Ret true
  | _ => Ret (model_scan model_value false (active_containers containers))
  end.


(** The read-back that decided an attempt: the second one when the
    fallback branch ran, the first one otherwise. *)
Definition deciding_readback (a : Attempt) : option Readback :=
  match a with
  | AttemptRaises => None
  | AttemptRead rb retry =>
      if PyStr.isdigit (PyStr.strip (rb_input rb)) || PyStr.isdigit (PyStr.strip (rb_visible rb))
      then retry else Some rb
  end.

(** ** [select_combobox_option] and [enforce_select_fields] *)

(** A click that is first tried ([trial=True]) and then made. *)
Record ClickTry := {
  trial_ok : bool;
  click_ok : bool;
}.

Definition click_lands (c : ClickTry) : bool := trial_ok c && click_ok c.

Record OptionLocator := {
  opt_count : Outcome nat;     (* [opt.count()] *)
  opt_try : ClickTry;
}.

(** The answers of the page during one call of [select_combobox_option]. *)
Record ComboPage := {
  combo_count : Outcome nat;        (* [combo.count()] *)
  combo_click : bool;               (* [combo.click(timeout=2500)] returns *)
  combo_force_click : bool;         (* the same with [force=True] *)
  combo_opened_wait : Outcome unit; (* [page.wait_for_timeout(250)] *)
  editable_count : Outcome nat;     (* [editable.count()] *)
  editable_typed : bool;
    (* click, fill (or select-all and type) and Enter on the backing input
       all returned; when one raises the script goes on all the same *)
  option_patterns : list OptionLocator;   (* the five locators, in order *)
  option_clicked_wait : Outcome unit;
  final_value : string;             (* [get_combobox_display_value] *)
}.

(** The [for opt in option_patterns] loop; the result is [clicked]. *)
Fixpoint click_option (opts : list OptionLocator) : Outcome bool :=
  match opts with
  | [] => Ret false
  | o :: rest =>
      n ← opt_count o;
      if (n =? 0)%nat then click_option rest
      else if click_lands (opt_try o) then Ret true
      else click_option rest
  end.

Definition select_combobox_option (pg : ComboPage) (option_text : string)
    : Outcome bool :=
  n ← combo_count pg;
  if (n =? 0)%nat then Ret true
  else if negb (combo_click pg || combo_force_click pg) then Ret false
  else
    _ ← combo_opened_wait pg;
    _ ← editable_count pg;
    clicked ← click_option (option_patterns pg);
    if negb clicked then Ret false
    else
      _ ← option_clicked_wait pg;
      Ret (String.eqb (final_value pg) option_text
           || PyStr.contains (PyStr.lower option_text) (PyStr.lower (final_value pg))).

(** Text went into the backing input of the combobox. *)
Definition typed_into_input (pg : ComboPage) : bool :=
  match editable_count pg with
  | Ret n => negb (n =? 0)%nat && editable_typed pg
  | Raise _ => false
  end.

(** [enforce_select_fields]: [combo_for label] is what the page answers
    when the field with that label is handled. *)
Fixpoint enforce_select_fields_from (ok : bool) (combo_for : string -> ComboPage)
    (select_fields : list (string * string)) : Outcome bool :=
  match select_fields with
  | [] => Ret ok
  | (label_text, option_text) :: rest =>
      field_ok ← select_combobox_option (combo_for label_text) option_text;
      enforce_select_fields_from (ok && field_ok) combo_for rest
  end.

Definition enforce_select_fields := enforce_select_fields_from true.

(** ** [click_tinggalkan_halaman] *)

Inductive LeaveSelector :=
| DialogButtonByLabel   (* [role=dialog] [role=button][aria-label=...] *)
| ButtonByLabel         (* [role=button][aria-label=...] *)
| ButtonByText          (* [role=button]:has-text(...) *)
| DialogNoneByText      (* [role=dialog] [role=none]:has-text(...) *)
| DivNoneByText.        (* div[role=none]:has-text(...) *)

Definition leave_selectors : list LeaveSelector :=
  [DialogButtonByLabel; ButtonByLabel; ButtonByText; DialogNoneByText; DivNoneByText].

(** One turn of the polling loop: what each selector finds ([count()] may
    raise; every item found is tried in turn), what the script-level search
    answers, and the pause before the next turn. *)
Record LeavePoll := {
  lp_locate : LeaveSelector -> Outcome (list ClickTry);
  lp_js_clicked : Outcome bool;
  lp_wait : Outcome unit;
}.

Record LeavePage := {
  polls : list LeavePoll;            (* the turns that start before the 10 s are over *)
  confirmation_visible : Outcome bool;  (* the [page.evaluate] of [leave_confirmation_present] *)
}.

Definition click_first_actionable (locator : Outcome (list ClickTry)) : Outcome bool :=
  items ← locator;
  Ret (existsb click_lands items).

Fixpoint try_selectors (locate : LeaveSelector -> Outcome (list ClickTry))
    (selectors : list LeaveSelector) : Outcome bool :=
  match selectors with
  | [] => Ret false
  | sel :: rest =>
      hit ← click_first_actionable (locate sel);
      if (hit : bool) then Ret true else try_selectors locate rest
  end.

(** The [while] loop: [Ret true] when a click landed, [Ret false] when the
    window ran out. *)
Fixpoint poll_leave (turns : list LeavePoll) : Outcome bool :=
  match turns with
  | [] => Ret false
  | p :: rest =>
      hit ← try_selectors (lp_locate p) leave_selectors;
      if (hit : bool) then Ret true
      else
        js_clicked ← lp_js_clicked p;
        if (js_clicked : bool) then Ret true
        else _ ← lp_wait p; poll_leave rest
  end.

Definition leave_confirmation_present (pg : LeavePage) : bool :=
  match confirmation_visible pg with
  | Ret b => b
  | Raise _ => false
  end.

Definition click_tinggalkan_halaman (pg : LeavePage) : bool :=
  match poll_leave (polls pg) with
  | Ret true => true
  | Ret false => negb (leave_confirmation_present pg)
  | Raise _ => false
  end.

(** ** The reconciliation loop of [run_single_listing] *)

(** The local variables of [run_single_listing] that live across passes. *)
Record LoopState := {
  success : bool;
  dom_success : bool;
  photo_success : bool;
  draft_clicked : bool;
  leave_clicked : bool;
  dom_stable_count : nat;
  attempts : nat;
  selects_ok : bool;
  model_commit_ok : bool;
  mileage_commit_ok : bool;
}.

Definition initial_state : LoopState :=
  {| success := false; dom_success := false; photo_success := false;
     draft_clicked := false; leave_clicked := false; dom_stable_count := 0;
     attempts := 0; selects_ok := false; model_commit_ok := false;
     mileage_commit_ok := false |}.

(** What the page and the helpers answer during one pass of the [while]
    loop.  A helper that catches its own exceptions answers a [bool]. *)
Record PassEnv := {
  pe_wait : Outcome unit;            (* [page.wait_for_timeout(1500)] *)
  pe_upload_photo : bool;            (* [upload_photo] *)
  pe_on_create_page : bool;          (* the create URL is part of [page.url] *)
  pe_reopen : Outcome unit;          (* [page.goto] and the 800 ms wait *)
  pe_patch_dom : Outcome bool;       (* [patch_dom] *)
  pe_diagnostics : Outcome unit;     (* [wait_and_find_berikutnya(timeout_ms=800)] *)
  pe_select_fields : Outcome bool;   (* [enforce_select_fields] *)
  pe_model_commit : Outcome bool;    (* [enforce_model_input_commit] *)
  pe_mileage_commit : Outcome bool;  (* [enforce_labeled_text_input_commit] *)
  pe_save_draft : bool;              (* [click_save_draft] *)
  pe_leave_page : bool;              (* [click_tinggalkan_halaman] *)
}.

(** The calls a pass makes, in the order it makes them. *)
Inductive Call :=
| CallWait
| CallUploadPhoto
| CallReopen
| CallPatchDom
| CallDiagnostics
| CallSelectFields
| CallModelCommit
| CallMileageCommit
| CallSaveDraft
| CallLeavePage.

(** Statements of the loop body: they read and write the local variables,
    record the calls they make, and may raise.  What was assigned before an
    exception stays assigned. *)
Definition Body (A : Type) : Type := LoopState -> Outcome A * (LoopState * list Call).

Definition unit_body {A} (a : A) : Body A := fun s => (Ret a, (s, [])).

Definition bind_body {A B} (m : Body A) (k : A -> Body B) : Body B :=
  fun s =>
    match m s with
    | (Ret a, (s1, c1)) =>
        match k a s1 with
        | (r, (s2, c2)) => (r, (s2, (c1 ++ c2)%list))
        end
    | (Raise e, sc) => (Raise e, sc)
    end.

Definition read_state : Body LoopState := fun s => (Ret s, (s, [])).

Definition assign (f : LoopState -> LoopState) : Body unit :=
  fun s => (Ret tt, (f s, [])).

Definition call {A} (c : Call) (answer : Outcome A) : Body A :=
  fun s => (answer, (s, [c])).

Definition when (b : bool) (m : Body unit) : Body unit :=
  if b then m else unit_body tt.

#[global] Instance body_ret : MRet Body := @unit_body.
#[global] Instance body_bind : MBind Body := fun A B k m => bind_body m k.

(** Assignments to the local variables. *)
Definition set_success (b : bool) (s : LoopState) : LoopState :=
  {| success := b; dom_success := dom_success s; photo_success := photo_success s;
     draft_clicked := draft_clicked s; leave_clicked := leave_clicked s;
     dom_stable_count := dom_stable_count s; attempts := attempts s;
     selects_ok := selects_ok s; model_commit_ok := model_commit_ok s;
     mileage_commit_ok := mileage_commit_ok s |}.

Definition set_dom_success (b : bool) (s : LoopState) : LoopState :=
  {| success := success s; dom_success := b; photo_success := photo_success s;
     draft_clicked := draft_clicked s; leave_clicked := leave_clicked s;
     dom_stable_count := dom_stable_count s; attempts := attempts s;
     selects_ok := selects_ok s; model_commit_ok := model_commit_ok s;
     mileage_commit_ok := mileage_commit_ok s |}.

Definition set_photo_success (b : bool) (s : LoopState) : LoopState :=
  {| success := success s; dom_success := dom_success s; photo_success := b;
     draft_clicked := draft_clicked s; leave_clicked := leave_clicked s;
     dom_stable_count := dom_stable_count s; attempts := attempts s;
     selects_ok := selects_ok s; model_commit_ok := model_commit_ok s;
     mileage_commit_ok := mileage_commit_ok s |}.

Definition set_draft_clicked (b : bool) (s : LoopState) : LoopState :=
  {| success := success s; dom_success := dom_success s; photo_success := photo_success s;
     draft_clicked := b; leave_clicked := leave_clicked s;
     dom_stable_count := dom_stable_count s; attempts := attempts s;
     selects_ok := selects_ok s; model_commit_ok := model_commit_ok s;
     mileage_commit_ok := mileage_commit_ok s |}.

Definition set_leave_clicked (b : bool) (s : LoopState) : LoopState :=
  {| success := success s; dom_success := dom_success s; photo_success := photo_success s;
     draft_clicked := draft_clicked s; leave_clicked := b;
     dom_stable_count := dom_stable_count s; attempts := attempts s;
     selects_ok := selects_ok s; model_commit_ok := model_commit_ok s;
     mileage_commit_ok := mileage_commit_ok s |}.

Definition set_dom_stable_count (n : nat) (s : LoopState) : LoopState :=
  {| success := success s; dom_success := dom_success s; photo_success := photo_success s;
     draft_clicked := draft_clicked s; leave_clicked := leave_clicked s;
     dom_stable_count := n; attempts := attempts s;
     selects_ok := selects_ok s; model_commit_ok := model_commit_ok s;
     mileage_commit_ok := mileage_commit_ok s |}.

Definition set_attempts (n : nat) (s : LoopState) : LoopState :=
  {| success := success s; dom_success := dom_success s; photo_success := photo_success s;
     draft_clicked := draft_clicked s; leave_clicked := leave_clicked s;
     dom_stable_count := dom_stable_count s; attempts := n;
     selects_ok := selects_ok s; model_commit_ok := model_commit_ok s;
     mileage_commit_ok := mileage_commit_ok s |}.

Definition set_selects_ok (b : bool) (s : LoopState) : LoopState :=
  {| success := success s; dom_success := dom_success s; photo_success := photo_success s;
     draft_clicked := draft_clicked s; leave_clicked := leave_clicked s;
     dom_stable_count := dom_stable_count s; attempts := attempts s;
     selects_ok := b; model_commit_ok := model_commit_ok s;
     mileage_commit_ok := mileage_commit_ok s |}.

Definition set_model_commit_ok (b : bool) (s : LoopState) : LoopState :=
  {| success := success s; dom_success := dom_success s; photo_success := photo_success s;
     draft_clicked := draft_clicked s; leave_clicked := leave_clicked s;
     dom_stable_count := dom_stable_count s; attempts := attempts s;
     selects_ok := selects_ok s; model_commit_ok := b;
     mileage_commit_ok := mileage_commit_ok s |}.

Definition set_mileage_commit_ok (b : bool) (s : LoopState) : LoopState :=
  {| success := success s; dom_success := dom_success s; photo_success := photo_success s;
     draft_clicked := draft_clicked s; leave_clicked := leave_clicked s;
     dom_stable_count := dom_stable_count s; attempts := attempts s;
     selects_ok := selects_ok s; model_commit_ok := model_commit_ok s;
     mileage_commit_ok := b |}.

(** The condition under which the save-draft click is tried. *)
Definition save_gate (s : LoopState) : bool :=
  (2 <=? dom_stable_count s)%nat && photo_success s && selects_ok s
  && model_commit_ok s && mileage_commit_ok s && negb (draft_clicked s).

Definition all_checks (s : LoopState) : bool :=
  dom_success s && photo_success s && selects_ok s && model_commit_ok s
  && mileage_commit_ok s && draft_clicked s && leave_clicked s.


(** Lines 1665-1671: count the attempt, wait, attach the photo once, go back
    to the form when the page has left it. *)
Definition prepare_pass (e : PassEnv) : Body unit :=
  assign (fun s => set_attempts (S (attempts s)) s) ;;
  call CallWait (pe_wait e) ;;
  s ← read_state;
  when (negb (photo_success s))
    (r ← call CallUploadPhoto (Ret (pe_upload_photo e));
     assign (set_photo_success r)) ;;
  when (negb (pe_on_create_page e)) (call CallReopen (pe_reopen e)).

(** Lines 1672-1686: one DOM pass, the stability counter, the diagnostics
    of every sixth attempt. *)
Definition dom_pass (e : PassEnv) : Body unit :=
  d ← call CallPatchDom (pe_patch_dom e);
  assign (set_dom_success d) ;;
  assign (fun s => if dom_success s
                   then set_dom_stable_count (S (dom_stable_count s)) s
                   else set_dom_stable_count 0 s) ;;
  s ← read_state;
  when (negb (dom_success s) && (attempts s mod 6 =? 0)%nat)
    (call CallDiagnostics (pe_diagnostics e)).

(** Lines 1687-1692: the three commits, once the form has been stable. *)
Definition enforce_commits (e : PassEnv) : Body unit :=
  s ← read_state;
  when (2 <=? dom_stable_count s)%nat
    (r1 ← call CallSelectFields (pe_select_fields e);
     assign (set_selects_ok r1) ;;
     r2 ← call CallModelCommit (pe_model_commit e);
     assign (set_model_commit_ok r2) ;;
     r3 ← call CallMileageCommit (pe_mileage_commit e);
     assign (set_mileage_commit_ok r3)).

(** Lines 1693-1705: save the draft, confirm leaving, evaluate [success]. *)
Definition side_effects (e : PassEnv) : Body unit :=
  s ← read_state;
  when (save_gate s)
    (r ← call CallSaveDraft (Ret (pe_save_draft e));
     assign (set_draft_clicked r)) ;;
  s ← read_state;
  when (draft_clicked s && negb (leave_clicked s))
    (r ← call CallLeavePage (Ret (pe_leave_page e));
     assign (set_leave_clicked r)) ;;
  assign (fun s => set_success (all_checks s) s).

(** The body of the [try] block. *)
Definition loop_body (e : PassEnv) : Body unit :=
  prepare_pass e ;; dom_pass e ;; enforce_commits e ;; side_effects e.


(** ** JSON payloads and the Python built-ins applied to them *)

(** What [json.loads] returns. *)
#[warnings="-register-all"] Inductive json :=
| JNull
| JBool (b : bool)
| JInt (z : Z)
| JFloat (x : float)
| JStr (s : string)
| JList (items : list json)
| JDict (entries : gmap string json).

(** Two conversions of Python are taken as they are: the text [str] gives
    for a float, a list or a dict, and the float [float] reads from a
    string ([ValueError] when it reads none). *)
Class PyBuiltins := {
  py_repr : json -> string;
  py_parse_float : string -> Outcome float;
}.

Section PythonValues.
Context `{PyBuiltins}.

(** [str(v)] *)
Definition py_str (v : json) : string :=
  match v with
  | JNull => "None"
  | JBool true => "True"
  | JBool false => "False"
  | JInt z => pretty z
  | JStr s => s
  | JFloat _ | JList _ | JDict _ => py_repr v
  end.

(** [bool(v)] *)
Definition py_truthy (v : json) : bool :=
  match v with
  | JNull => false
  | JBool b => b
  | JInt z => negb (z =? 0)
  | JFloat x => negb (PrimFloat.eqb x 0%float)
  | JStr s => negb (String.eqb s "")
  | JList items => match items with [] => false | _ => true end
  | JDict entries => match map_to_list entries with [] => false | _ => true end
  end.

(** [float(z)] on an [int]: the nearest double, [OverflowError] beyond
    the range of doubles. *)
Definition float_of_int (z : Z) : Outcome float :=
  let x := SF2Prim (binary_normalize 53 1024 z 0 false) in
  if PrimFloat.is_infinity x then Raise OverflowError else Ret x.

(** [float(v)] *)
Definition py_float (v : json) : Outcome float :=
  match v with
  | JInt z => float_of_int z
  | JFloat x => Ret x
  | JBool b => Ret (if b then 1%float else 0%float)
  | JStr s => py_parse_float s
  | JNull | JList _ | JDict _ => Raise TypeError
  end.

(** [d[key]] *)
Definition subscript (d : gmap string json) (key : string) : Outcome json :=
  match d !! key with
  | Some v => Ret v
  | None => Raise (KeyError key)
  end.

(** [d.get(key)] with [None] for a missing key, read as "has a value":
    [d.get(key) is not None]. *)
Definition has_value (d : gmap string json) (key : string) : bool :=
  match d !! key with
  | Some JNull | None => false
  | Some _ => true
  end.

(** ** [normalize_cookies] *)

Definition same_site_map : gmap string string :=
  list_to_map [("lax", "Lax"); ("strict", "Strict");
               ("no_restriction", "None"); ("none", "None")].

Definition with_same_site (c item : gmap string json) : gmap string json :=
  match c !! "sameSite" with
  | None | Some JNull => item
  | Some same_site =>
      match same_site_map !! PyStr.lower (py_str same_site) with
      | Some mapped =>
          if String.eqb mapped "" then item
          else <["sameSite" := JStr mapped]> item
      | None => item
      end
  end.

Definition with_expires (c item : gmap string json) : Outcome (gmap string json) :=
  if negb (py_truthy (default (JBool false) (c !! "session")))
     && has_value c "expirationDate"
  then
    v ← subscript c "expirationDate";
    x ← py_float v;
    Ret (<["expires" := JFloat x]> item)
  else Ret item.

(** The body of the [for c in raw_cookies] loop. *)
Definition normalize_cookie (c : gmap string json) : Outcome (gmap string json) :=
  name ← subscript c "name";
  value ← subscript c "value";
  domain ← subscript c "domain";
  let item : gmap string json :=
    <["secure" := JBool (py_truthy (default (JBool true) (c !! "secure")))]>
    (<["httpOnly" := JBool (py_truthy (default (JBool false) (c !! "httpOnly")))]>
    (<["path" := default (JStr "/") (c !! "path")]>
    (<["domain" := domain]>
    (<["value" := value]>
    (<["name" := name]> ∅))))) in
  with_expires c (with_same_site c item).

Fixpoint normalize_cookies (raw_cookies : list (gmap string json))
    : Outcome (list (gmap string json)) :=
  match raw_cookies with
  | [] => Ret []
  | c :: rest =>
      item ← normalize_cookie c;
      normalized ← normalize_cookies rest;
      Ret (item :: normalized)
  end.

End PythonValues.

(** ** Module constants *)

Definition TARGET_URL := "https://www.facebook.com/marketplace/create/vehicle".
Definition SELLING_URL := "https://www.facebook.com/marketplace/you/selling".
Definition VEHICLE_TYPE_LABEL := "Jenis kendaraan".
Definition VEHICLE_TYPE_WRAPPER_ID := "_r_5u_".
Definition VEHICLE_TYPE_WRAPPER_ID_ALT := "_r_7l_".
Definition VEHICLE_TYPE_WRAPPER_ID_ALT2 := "_r_76_".
Definition VEHICLE_TYPE_WRAPPER_ID_ALT3 := "_r_4p_".
Definition YEAR_FIELD_LABEL := "Tahun".
Definition YEAR_FIELD_WRAPPER_ID := "_r_6b".
Definition YEAR_FIELD_WRAPPER_ID_ALT := "_r_5u_".
Definition MAKE_INPUT_ID := "_r_2s_".
Definition TOYOTA_INPUT_ID := "_r_1s_".
Definition BRAND_LABEL := "Merek".
Definition BRAND_INPUT_ID := "_r_22_".
Definition BRAND_WRAPPER_ID := "_r_6r_".
Definition MODEL_LABEL := "Model".
Definition MODEL_INPUT_ID := "_r_26_".
Definition MODEL_INPUT_ID_ALT := "_r_6a_".
Definition MODEL_INPUT_ID_ALT2 := "_r_76_".
Definition PRICE_LABEL := "Harga".
Definition PRICE_INPUT_ID := "_r_3a_".
Definition MILEAGE_LABEL := "Jarak Tempuh".
Definition MILEAGE_INPUT_ID := "_r_5g_".
Definition MILEAGE_INPUT_ID_ALT := "_r_91_".
Definition DESCRIPTION_LABEL := "Keterangan".
Definition DESCRIPTION_TEXTAREA_ID := "_r_3e_".
Definition LOCATION_LABEL := "Lokasi".
Definition PHOTO_GLOB_PATTERNS := ["*.jpg"; "*.jpeg"; "*.png"; "*.webp"; "*.heic"].
Definition COOKIE_FILE_DEFAULT := "cookies.json".
Definition DIV_CLASS :=
  "xjyslct xjbqb8w x13fuv20 x18b5jzi x1q0q8m5 x1t7ytsu x972fbf x10w94by "
  ++ "x1qhh985 x14e42zd x9f619 xzsf02u x78zum5 x1jchvi3 x1fcty0u x132q4wb "
  ++ "xdj266r x14z9mp xat24cr x1lziwak x1a2a7pz x1a8lsjc xv54qhq xf7dkkf "
  ++ "x9desvi x1n2onr6 x16tdsg8 xh8yej3 x1ja2u2z".

(** The module-level names that [apply_listing_globals] assigns. *)
Record Globals := {
  TARGET_TEXT : string;
  TARGET_YEAR_TEXT : string;
  MAKE_INPUT_VALUE : string;
  TOYOTA_INPUT_VALUE : string;
  MODEL_INPUT_VALUE : string;
  PRICE_INPUT_VALUE : string;
  MILEAGE_INPUT_VALUE : string;
  DESCRIPTION_TEXT : string;
  LOCATION_TEXT : string;
}.

(** Their values when the module is loaded. *)
Definition builtin_globals : Globals :=
  {| TARGET_TEXT := "Mobil/Truk";
     TARGET_YEAR_TEXT := "2025";
     MAKE_INPUT_VALUE := "Avanza";
     TOYOTA_INPUT_VALUE := "Toyota";
     MODEL_INPUT_VALUE := "Avanza";
     PRICE_INPUT_VALUE := "200000";
     MILEAGE_INPUT_VALUE := "120000";
     DESCRIPTION_TEXT := "nego tipis km rendah";
     LOCATION_TEXT := "Bekasi" |}.

(** The command line, as [parse_args] returns it. *)
Record Args := {
  profile_dir : string;
  headless : bool;
  attr_name : string;
  attr_value : string;
  photo_path_arg : string;   (* [args.photo_path] *)
  timeout_ms : Z;
  data_file : string;
  cookies_file : string;
}.

Definition default_args : Args :=
  {| profile_dir := ".pw-fb-profile"; headless := false; attr_name := "";
     attr_value := "Mobil/Truk"; photo_path_arg := ""; timeout_ms := 180000;
     data_file := "data.json"; cookies_file := COOKIE_FILE_DEFAULT |}.

(** ** Listings *)

(** A file the script reads: missing, unreadable as JSON, or parsed. *)
Inductive JsonFile :=
| FileAbsent
| FileInvalid
| FileJson (payload : json).

Definition dict_items (items : list json) : list (gmap string json) :=
  omap (fun item => match item with JDict d => Some d | _ => None end) items.

(** [load_listings_data]; the second component tells whether the warning
    about an invalid file was printed. *)
Definition load_listings_data (f : JsonFile) : list (gmap string json) * bool :=
  match f with
  | FileAbsent => ([], false)
  | FileInvalid => ([], true)
  | FileJson (JList items) => (dict_items items, false)
  | FileJson (JDict payload) =>
      match payload !! "listings" with
      | Some (JList items) => (dict_items items, false)
      | _ =>
          match payload !! "listing_data" with
          | Some (JList items) => (dict_items items, false)
          | Some (JDict d) => ([d], false)
          | _ => ([], false)
          end
      end
  | FileJson _ => ([], false)
  end.

(** [load_raw_cookies]; the flag is [true] when a warning was printed. *)
Definition load_raw_cookies (f : JsonFile) : list (gmap string json) * bool :=
  match f with
  | FileAbsent => ([], true)
  | FileInvalid => ([], true)
  | FileJson (JList items) => (dict_items items, false)
  | FileJson (JDict payload) =>
      match payload !! "fb_cookies" with
      | Some (JList items) => (dict_items items, false)
      | _ => ([], false)
      end
  | FileJson _ => ([], false)
  end.

(** The files of the project directory as the photo lookup sees them. *)
Record FileSystem := {
  fs_existing : string -> option string;
    (* for a photo argument, the absolute path it names when that file exists *)
  fs_glob : string -> list string;
    (* [sorted(project_root.glob(pattern))] *)
}.

Fixpoint first_match (fs : FileSystem) (patterns : list string) : option string :=
  match patterns with
  | [] => None
  | pattern :: rest =>
      match fs_glob fs pattern with
      | m :: _ => Some m
      | [] => first_match fs rest
      end
  end.

Definition discover_project_photo (fs : FileSystem) : option string :=
  first_match fs PHOTO_GLOB_PATTERNS.

Definition resolve_photo_path (fs : FileSystem) (photo_path_arg : string) : option string :=
  if negb (String.eqb (PyStr.strip photo_path_arg) "") then
    match fs_existing fs photo_path_arg with
    | Some candidate => Some candidate
    | None => discover_project_photo fs
    end
  else discover_project_photo fs.

Record ListingConfig := {
  target_url : string;
  selling_url : string;
  photo_path : string;
  vehicle_type : string;
  year : string;
  make : string;
  model : string;
  price : string;
  mileage : string;
  description : string;
  location : string;
}.

Definition select_fields (config : ListingConfig) : list (string * string) :=
  [(VEHICLE_TYPE_LABEL, vehicle_type config);
   (YEAR_FIELD_LABEL, year config);
   (BRAND_LABEL, make config)].

Section Listings.
Context `{PyBuiltins}.

Fixpoint _pick_listing_value (listing : gmap string json) (keys : list string)
    (fallback : string) : string :=
  match keys with
  | [] => fallback
  | key :: rest =>
      match listing !! key with
      | None | Some JNull => _pick_listing_value listing rest fallback
      | Some value =>
          if String.eqb (PyStr.strip (py_str value)) ""
          then _pick_listing_value listing rest fallback
          else PyStr.strip (py_str value)
      end
  end.

(** [build_listing_config]; the fall-back values are the module-level
    names as they stand when the function is called. *)
Definition build_listing_config (g : Globals) (listing : gmap string json)
    (args : Args) (fs : FileSystem)
    (default_target_url default_selling_url : string) : option ListingConfig :=
  let vehicle_type := _pick_listing_value listing ["vehicle_type"; "jenis_kendaraan"] (TARGET_TEXT g) in
  let year := _pick_listing_value listing ["year"; "tahun"] (TARGET_YEAR_TEXT g) in
  let make := _pick_listing_value listing ["make"; "merek"; "merk"; "brand"] (TOYOTA_INPUT_VALUE g) in
  let model := _pick_listing_value listing ["model"] (MODEL_INPUT_VALUE g) in
  let price := _pick_listing_value listing ["price"; "harga"] (PRICE_INPUT_VALUE g) in
  let mileage := _pick_listing_value listing ["mileage"; "jarak_tempuh"; "jarak"] (MILEAGE_INPUT_VALUE g) in
  let description := _pick_listing_value listing ["description"; "keterangan"] (DESCRIPTION_TEXT g) in
  let location := _pick_listing_value listing ["location"; "lokasi"] (LOCATION_TEXT g) in
  let target_url := _pick_listing_value listing ["target_url"] default_target_url in
  let selling_url := _pick_listing_value listing ["selling_url"] default_selling_url in
  let listing_photo_arg := _pick_listing_value listing ["photo_path"] (photo_path_arg args) in
  match resolve_photo_path fs listing_photo_arg with
  | None => None
  | Some photo_path =>
      Some {| target_url := target_url; selling_url := selling_url;
              photo_path := photo_path; vehicle_type := vehicle_type;
              year := year; make := make; model := model; price := price;
              mileage := mileage; description := description;
              location := location |}
  end.

End Listings.

(** [apply_listing_globals]: the state of the module-level names after the
    nine assignments; the last one gives [MAKE_INPUT_VALUE] the model text. *)
Definition apply_listing_globals (config : ListingConfig) (g : Globals) : Globals :=
  {| TARGET_TEXT := vehicle_type config;
     TARGET_YEAR_TEXT := year config;
     TOYOTA_INPUT_VALUE := make config;
     MODEL_INPUT_VALUE := model config;
     PRICE_INPUT_VALUE := price config;
     MILEAGE_INPUT_VALUE := mileage config;
     DESCRIPTION_TEXT := description config;
     LOCATION_TEXT := location config;
     MAKE_INPUT_VALUE := model config |}.

(** ** [patch_dom]: the arguments handed to the page script *)

Record PatchArgs := {
  divClass : string;
  targetText : string;
  vehicleTypeLabel : string;
  vehicleTypeWrapperId : string;
  vehicleTypeWrapperIdAlt : string;
  vehicleTypeWrapperIdAlt2 : string;
  vehicleTypeWrapperIdAlt3 : string;
  yearFieldLabel : string;
  yearFieldWrapperId : string;
  yearFieldWrapperIdAlt : string;
  targetYearText : string;
  makeInputId : string;
  makeInputValue : string;
  toyotaInputId : string;
  toyotaInputValue : string;
  brandLabel : string;
  brandInputId : string;
  brandWrapperId : string;
  modelLabel : string;
  modelInputId : string;
  modelInputIdAlt : string;
  modelInputIdAlt2 : string;
  modelInputValue : string;
  priceLabel : string;
  priceInputId : string;
  priceInputValue : string;
  mileageLabel : string;
  mileageInputId : string;
  mileageInputIdAlt : string;
  mileageInputValue : string;
  descriptionLabel : string;
  descriptionTextareaId : string;
  descriptionText : string;
  attrName : string;
  attrValue : string;
  locationLabel : string;
  locationText : string;
}.

Definition patch_dom_args (g : Globals) (attr_name attr_value : string) : PatchArgs :=
  {| divClass := DIV_CLASS;
     targetText := TARGET_TEXT g;
     vehicleTypeLabel := VEHICLE_TYPE_LABEL;
     vehicleTypeWrapperId := VEHICLE_TYPE_WRAPPER_ID;
     vehicleTypeWrapperIdAlt := VEHICLE_TYPE_WRAPPER_ID_ALT;
     vehicleTypeWrapperIdAlt2 := VEHICLE_TYPE_WRAPPER_ID_ALT2;
     vehicleTypeWrapperIdAlt3 := VEHICLE_TYPE_WRAPPER_ID_ALT3;
     yearFieldLabel := YEAR_FIELD_LABEL;
     yearFieldWrapperId := YEAR_FIELD_WRAPPER_ID;
     yearFieldWrapperIdAlt := YEAR_FIELD_WRAPPER_ID_ALT;
     targetYearText := TARGET_YEAR_TEXT g;
     makeInputId := MAKE_INPUT_ID;
     makeInputValue := MAKE_INPUT_VALUE g;
     toyotaInputId := TOYOTA_INPUT_ID;
     toyotaInputValue := TOYOTA_INPUT_VALUE g;
     brandLabel := BRAND_LABEL;
     brandInputId := BRAND_INPUT_ID;
     brandWrapperId := BRAND_WRAPPER_ID;
     modelLabel := MODEL_LABEL;
     modelInputId := MODEL_INPUT_ID;
     modelInputIdAlt := MODEL_INPUT_ID_ALT;
     modelInputIdAlt2 := MODEL_INPUT_ID_ALT2;
     modelInputValue := MODEL_INPUT_VALUE g;
     priceLabel := PRICE_LABEL;
     priceInputId := PRICE_INPUT_ID;
     priceInputValue := PRICE_INPUT_VALUE g;
     mileageLabel := MILEAGE_LABEL;
     mileageInputId := MILEAGE_INPUT_ID;
     mileageInputIdAlt := MILEAGE_INPUT_ID_ALT;
     mileageInputValue := MILEAGE_INPUT_VALUE g;
     descriptionLabel := DESCRIPTION_LABEL;
     descriptionTextareaId := DESCRIPTION_TEXTAREA_ID;
     descriptionText := DESCRIPTION_TEXT g;
     attrName := attr_name;
     attrValue := attr_value;
     locationLabel := LOCATION_LABEL;
     locationText := LOCATION_TEXT g |}.

(** ** [patch_dom]: the page script, text helpers and the make-input step *)

Module Js.

(** White space of the script's [\s] and of [trim] in the range 0..255. *)
Definition isspace (c : ascii) : bool :=
  PyStr.in_range 9 13 c || (PyStr.code c =? 32)%N || (PyStr.code c =? 160)%N.

(** The script's [\d]. *)
Definition isdigit_char (c : ascii) : bool := PyStr.in_range 48 57 c.

Fixpoint ltrim (s : string) : string :=
  match s with
  | EmptyString => EmptyString
  | String c r => if isspace c then ltrim r else s
  end.

Fixpoint rtrim (s : string) : string :=
  match s with
  | EmptyString => EmptyString
  | String c r =>
      match rtrim r with
      | EmptyString => if isspace c then EmptyString else String c EmptyString
      | r' => String c r'
      end
  end.

Definition trim (s : string) : string := rtrim (ltrim s).

(** [s.replace(/\s+/g, ' ')]; a no-break space is white space already, so
    replacing it by a space first changes nothing. *)
Fixpoint collapse_from (in_run : bool) (s : string) : string :=
  match s with
  | EmptyString => EmptyString
  | String c r =>
      if isspace c
      then (if in_run then collapse_from true r
            else String " "%char (collapse_from true r))
      else String c (collapse_from false r)
  end.

Fixpoint all_digits (s : string) : bool :=
  match s with
  | EmptyString => true
  | String c r => isdigit_char c && all_digits r
  end.

(** [cleaned] of [modelTextMatches] and of [normalizedText]. *)
Definition cleaned (v : string) : string := trim (collapse_from false v).

Definition normalizedText (v : string) : string := PyStr.lower (cleaned v).

(** [modelTextMatches], with [modelInputValue] as first argument. *)
Definition modelTextMatches (modelInputValue v : string) : bool :=
  let c := cleaned v in
  if String.eqb c "" || all_digits c then false
  else String.eqb (normalizedText c) (normalizedText modelInputValue).

End Js.

(** An element of the page, as far as the make-input step reads it. *)
Record Element := {
  tagName : string;                 (* lower case *)
  control_value : string;           (* [readControlValue(el)] *)
  value_after_events : string -> string;
    (* what [readControlValue(el)] gives once the text was written and the
       input, change and blur events were dispatched *)
}.

Record Document := {
  getElementById : gmap string Element;
  signature_spans : list string;
    (* for the divs whose class is [divClass] and that hold a value span,
       in document order: the text of that span *)
}.

(** What the script does to the page. *)
Inductive DomWrite :=
| SetControlValue (element_id : string) (text : string)
| ReplaceDivByInput (div_index : nat) (element_id : string) (text : string).

Record MakeStep := {
  makeRequired : bool;
  makePatched : bool;
  make_writes : list DomWrite;
}.

Fixpoint find_span (text : string) (index : nat) (spans : list string) : option nat :=
  match spans with
  | [] => None
  | sp :: rest =>
      if String.eqb (Js.trim sp) text then Some index
      else find_span text (S index) rest
  end.

(** Lines 1099-1131 of the page script. *)
Definition patch_make_input (a : PatchArgs) (doc : Document) : MakeStep :=
  let makeInput := getElementById doc !! makeInputId a in
  match makeInput with
  | Some el =>
      if String.eqb (tagName el) "input" then
        {| makeRequired := true;
           makePatched := String.eqb (value_after_events el (makeInputValue a)) (makeInputValue a);
           make_writes := [SetControlValue (makeInputId a) (makeInputValue a)] |}
      else
        match find_span (toyotaInputValue a) 0 (signature_spans doc) with
        | Some i =>
            {| makeRequired := true; makePatched := true;
               make_writes := [ReplaceDivByInput i (makeInputId a) (makeInputValue a)] |}
        | None =>
            {| makeRequired := true;
               makePatched := String.eqb (control_value el) (makeInputValue a);
               make_writes := [] |}
        end
  | None =>
      match find_span (toyotaInputValue a) 0 (signature_spans doc) with
      | Some i =>
          {| makeRequired := true; makePatched := true;
             make_writes := [ReplaceDivByInput i (makeInputId a) (makeInputValue a)] |}
      | None => {| makeRequired := false; makePatched := false; make_writes := [] |}
      end
  end.

Definition written_text (w : DomWrite) : string :=
  match w with
  | SetControlValue _ text => text
  | ReplaceDivByInput _ _ text => text
  end.

Definition written_id (w : DomWrite) : string :=
  match w with
  | SetControlValue element_id _ => element_id
  | ReplaceDivByInput _ element_id _ => element_id
  end.

(** ** [enforce_labeled_text_input_commit] *)

Record TextContainer := {
  tc_visible : bool;
  tc_input : option (Outcome string);
    (* [None]: no text input; [Raise]: a call of the [try] block raised;
       [Ret v]: [input_el.input_value()] after the text was typed *)
}.

(** [re.sub(r"\D+", "", s)] *)
Fixpoint keep_digits (s : string) : string :=
  match s with
  | EmptyString => EmptyString
  | String c r =>
      if PyStr.in_range 48 57 c then String c (keep_digits r) else keep_digits r
  end.

Definition text_attempt (target_value : string) (digits_only : bool)
    (answer : Outcome string) : bool :=
  match answer with
  | Raise _ => false
  | Ret v =>
      let current := PyStr.strip v in
      if digits_only then
        negb (String.eqb (keep_digits target_value) "")
        && String.eqb (keep_digits current) (keep_digits target_value)
      else
        String.eqb (PyStr.lower (PyStr.strip (PyStr.collapse_ws current)))
                   (PyStr.lower (PyStr.strip (PyStr.collapse_ws target_value)))
  end.

Fixpoint text_scan (target_value : string) (digits_only required : bool)
    (active : list TextContainer) : bool :=
  match active with
  | [] => negb required
  | c :: rest =>
      match tc_input c with
      | None => text_scan target_value digits_only required rest
      | Some answer =>
          if text_attempt target_value digits_only answer then true
          else text_scan target_value digits_only true rest
      end
  end.

Definition enforce_labeled_text_input_commit (page : Outcome (list TextContainer))
    (target_value : string) (digits_only : bool) : Outcome bool :=
  containers ← page;
  match containers with
  | [] => Ret true
  | _ =>
      let visible_containers := List.filter tc_visible containers in
      let active := match visible_containers with [] => containers | _ => visible_containers end in
      Ret (text_scan target_value digits_only false active)
  end.

(** ** One pass against the page *)

(** The page during one pass: the answers to the loop's own calls and the
    pages the three commit helpers and the leave-page helper work on. *)
Record PassPage := {
  pp_wait : Outcome unit;
  pp_upload_photo : bool;
  pp_on_create_page : bool;
  pp_reopen : Outcome unit;
  pp_patch_dom : Outcome bool;
  pp_diagnostics : Outcome unit;
  pp_combo_for : string -> ComboPage;
  pp_model : Outcome ModelPage;
  pp_mileage : Outcome (list TextContainer);
  pp_save_draft : bool;
  pp_leave : LeavePage;
}.

Definition observe_pass (config : ListingConfig) (pg : PassPage) : PassEnv :=
  {| pe_wait := pp_wait pg;
     pe_upload_photo := pp_upload_photo pg;
     pe_on_create_page := pp_on_create_page pg;
     pe_reopen := pp_reopen pg;
     pe_patch_dom := pp_patch_dom pg;
     pe_diagnostics := pp_diagnostics pg;
     pe_select_fields := enforce_select_fields (pp_combo_for pg) (select_fields config);
     pe_model_commit := enforce_model_input_commit (pp_model pg) (model config);
     pe_mileage_commit := enforce_labeled_text_input_commit (pp_mileage pg) (mileage config) true;
     pe_save_draft := pp_save_draft pg;
     pe_leave_page := click_tinggalkan_halaman (pp_leave pg) |}.

(** ** [run_single_listing] *)

(** One executed pass: the variables before it, whether the [try] block
    raised, the variables after it, and the calls it made. *)
Record PassRecord := {
  pr_before : LoopState;
  pr_raised : option PyExc;
  pr_after : LoopState;
  pr_calls : list Call;
}.

Definition run_pass (s : LoopState) (e : PassEnv) : PassRecord :=
  match loop_body e s with
  | (Ret _, (s', cs)) =>
      {| pr_before := s; pr_raised := None; pr_after := s'; pr_calls := cs |}
  | (Raise x, (s', cs)) =>
      {| pr_before := s; pr_raised := Some x; pr_after := s'; pr_calls := cs |}
  end.

(** The [break]: the pass ran to its end and [success] holds. *)
Definition breaks (r : PassRecord) : bool :=
  match pr_raised r with
  | None => success (pr_after r)
  | Some _ => false
  end.

(** The [while] loop.  [passes] are the passes that start before the
    deadline, in order; the loop leaves them early at a [break]. *)
Fixpoint reconcile (s : LoopState) (passes : list PassEnv) : list PassRecord :=
  match passes with
  | [] => []
  | e :: rest =>
      let r := run_pass s e in
      r :: (if breaks r then [] else reconcile (pr_after r) rest)
  end.

(** The variables when the loop is left. *)
Definition final_state (s : LoopState) (history : list PassRecord) : LoopState :=
  List.last (List.map pr_after history) s.

(** The seven values of the "incomplete update" line. *)
Record Diagnostic := {
  d_dom_success : bool;
  d_photo_success : bool;
  d_selects_ok : bool;
  d_model_commit_ok : bool;
  d_mileage_commit_ok : bool;
  d_draft_clicked : bool;
  d_leave_clicked : bool;
}.

Definition diagnostic (s : LoopState) : Diagnostic :=
  {| d_dom_success := dom_success s; d_photo_success := photo_success s;
     d_selects_ok := selects_ok s; d_model_commit_ok := model_commit_ok s;
     d_mileage_commit_ok := mileage_commit_ok s; d_draft_clicked := draft_clicked s;
     d_leave_clicked := leave_clicked s |}.

(** The lines the script prints, as far as they report on records. *)
Inductive LogLine :=
| WarnInvalidDataFile
| InfoFallbackSingleRun
| WarnNoCookies
| ErrNoImage (idx : nat)
| InfoListingStart (idx total : nat)
| WarnTransient (e : PyExc)
| ErrIncompleteUpdate (d : Diagnostic)
| ErrIncompleteListing (idx : nat)
| OpeningSellingPage (url : string)
| ErrCompletedWithFailures (failed total : nat)
| AllPosted.

Definition transient_warning (r : PassRecord) : option LogLine :=
  match pr_raised r with
  | None | Some PlaywrightTimeoutError => None
  | Some e => Some (WarnTransient e)
  end.

(** The page during one run: the opening of the form (outside the [try])
    and the passes. *)
Record RunPage := {
  run_open : Outcome unit;
  run_passes : list PassPage;
}.

Definition run_single_listing (config : ListingConfig) (pg : RunPage)
    : Outcome (bool * list LogLine) :=
  _ ← run_open pg;
  let history := reconcile initial_state (List.map (observe_pass config) (run_passes pg)) in
  let s := final_state initial_state history in
  let warnings := omap transient_warning history in
  if success s then Ret (true, warnings)
  else Ret (false, (warnings ++ [ErrIncompleteUpdate (diagnostic s)])%list).

(** ** [main] *)

Record MainEnv := {
  main_args : Args;
  data_file_content : JsonFile;
  cookies_file_content : JsonFile;
  file_system : FileSystem;
  listing_page : nat -> RunPage;        (* by listing number, from 1 *)
  selling_page : nat -> Outcome unit;   (* opening the selling page after it *)
}.

Section Main.
Context `{PyBuiltins}.

(** The [for idx, listing in enumerate(listings, start=1)] loop.  The
    result is [failed_count] and the lines printed. *)
Fixpoint process_listings (env : MainEnv) (total : nat) (g : Globals) (idx : nat)
    (failed_count : nat) (listings : list (gmap string json))
    : Outcome (nat * list LogLine) :=
  match listings with
  | [] => Ret (failed_count, [])
  | listing :: rest =>
      match build_listing_config g listing (main_args env) (file_system env)
              TARGET_URL SELLING_URL with
      | None =>
          r ← process_listings env total g (S idx) (S failed_count) rest;
          Ret (r.1, ErrNoImage idx :: r.2)
      | Some config =>
          let g' := apply_listing_globals config g in
          run ← run_single_listing config (listing_page env idx);
          if (run.1 : bool) then
            _ ← selling_page env idx;
            r ← process_listings env total g' (S idx) failed_count rest;
            Ret (r.1, (InfoListingStart idx total :: run.2
                       ++ OpeningSellingPage (selling_url config) :: r.2)%list)
          else
            r ← process_listings env total g' (S idx) (S failed_count) rest;
            Ret (r.1, (InfoListingStart idx total :: run.2
                       ++ ErrIncompleteListing idx :: r.2)%list)
      end
  end.

(** The listings [main] works on. *)
Definition main_listings (env : MainEnv) : list (gmap string json) :=
  match (load_listings_data (data_file_content env)).1 with
  | [] => [∅]
  | listings => listings
  end.

(** [main]: the exit code and the lines printed. *)
Definition main (env : MainEnv) : Outcome (Z * list LogLine) :=
  let loaded := load_listings_data (data_file_content env) in
  let listings := main_listings env in
  let raw_cookies := (load_raw_cookies (cookies_file_content env)).1 in
  let head_lines :=
    ((if loaded.2 then [WarnInvalidDataFile] else [])
     ++ (match loaded.1 with [] => [InfoFallbackSingleRun] | _ => [] end)
     ++ (match raw_cookies with [] => [WarnNoCookies] | _ => [] end))%list in
  _ ← match raw_cookies with
      | [] => Ret []
      | _ => normalize_cookies raw_cookies
      end;
  r ← process_listings env (List.length listings) builtin_globals 1 0 listings;
  match r.1 with
  | O => Ret (0, (head_lines ++ r.2 ++ [AllPosted])%list)
  | S _ =>
      Ret (1, (head_lines ++ r.2
               ++ [ErrCompletedWithFailures r.1 (List.length listings)])%list)
  end.

End Main.

(** ** Concrete pages and records used by the examples below *)

Definition numeric_readback : Readback :=
  {| rb_input := "2008"; rb_visible := "2008" |}.

(** A form whose model input shows the digits that were typed, on the
    first read-back and after the fallback typed them again. *)
Definition numeric_model_page : ModelPage :=
  {| strict_match := [];
     loose_match :=
       [ {| mc_visible := true;
            mc_input := Some (AttemptRead numeric_readback (Some numeric_readback)) |} ] |}.

Definition landing_click : ClickTry := {| trial_ok := true; click_ok := true |}.

(** A combobox whose backing input took the text and whose value shows
    it, while no option could be clicked. *)
Definition typed_only_combo : ComboPage :=
  {| combo_count := Ret 1%nat; combo_click := true; combo_force_click := false;
     combo_opened_wait := Ret tt; editable_count := Ret 1%nat; editable_typed := true;
     option_patterns :=
       [ {| opt_count := Ret 0%nat; opt_try := landing_click |};
         {| opt_count := Ret 1%nat; opt_try := {| trial_ok := false; click_ok := true |} |} ];
     option_clicked_wait := Ret tt; final_value := "Toyota" |}.

(** The same combobox with an option that takes the click. *)
Definition clicked_combo : ComboPage :=
  {| combo_count := Ret 1%nat; combo_click := true; combo_force_click := false;
     combo_opened_wait := Ret tt; editable_count := Ret 1%nat; editable_typed := true;
     option_patterns := [ {| opt_count := Ret 1%nat; opt_try := landing_click |} ];
     option_clicked_wait := Ret tt; final_value := "TOYOTA (Jepang)" |}.

(** A form variant without any combobox for the label. *)
Definition no_combo : ComboPage :=
  {| combo_count := Ret 0%nat; combo_click := false; combo_force_click := false;
     combo_opened_wait := Ret tt; editable_count := Ret 0%nat; editable_typed := false;
     option_patterns := []; option_clicked_wait := Ret tt; final_value := "" |}.

(** A polling turn in which nothing is found and nothing raises. *)
Definition empty_turn : LeavePoll :=
  {| lp_locate := fun _ => Ret []; lp_js_clicked := Ret false; lp_wait := Ret tt |}.

(** A polling turn in which the script-level search raises, as it does
    when the page navigates away under it. *)
Definition navigating_turn : LeavePoll :=
  {| lp_locate := fun _ => Ret [];
     lp_js_clicked := Raise (PlaywrightError "Execution context was destroyed");
     lp_wait := Ret tt |}.

(** No prompt is shown, and the page navigates during the first turn. *)
Definition navigating_leave_page : LeavePage :=
  {| polls := [navigating_turn]; confirmation_visible := Ret false |}.

(** No prompt is ever shown. *)
Definition absent_prompt_page : LeavePage :=
  {| polls := [empty_turn; empty_turn]; confirmation_visible := Ret false |}.

(** C6 as the specification words it: without a landed click and without a
    visible prompt after the window the step succeeds, and it fails only
    with a prompt still visible and never clicked. *)
Definition leave_page_as_specified (pg : LeavePage) : Prop :=
  (poll_leave (polls pg) <> Ret true ->
   confirmation_visible pg = Ret false ->
   click_tinggalkan_halaman pg = true)
  /\ (click_tinggalkan_halaman pg = false ->
      confirmation_visible pg = Ret true /\ poll_leave (polls pg) <> Ret true).

(** A polling turn that runs to its end: every selector answers, no click
    lands, the script-level search finds nothing, the pause returns. *)
Definition quiet_turn (p : LeavePoll) : Prop :=
  (forall sel, In sel leave_selectors ->
     exists items, lp_locate p sel = Ret items /\ existsb click_lands items = false)
  /\ lp_js_clicked p = Ret false
  /\ returns (lp_wait p) = true.

(** An option element that takes the click: found, tried, clicked. *)
Definition option_clicked (pg : ComboPage) : Prop :=
  exists o n, In o (option_patterns pg) /\ opt_count o = Ret (S n)
              /\ click_lands (opt_try o) = true.

(** ** Notions for the properties of the loop *)

(** What the DOM pass of a turn of the loop answers: [Some b] when
    [patch_dom] is reached and returns [b], [None] when the pass raises
    before it or in it. *)
Definition dom_answer (e : PassEnv) : option bool :=
  match pe_wait e with
  | Raise _ => None
  | Ret _ =>
      if pe_on_create_page e || returns (pe_reopen e) then
        match pe_patch_dom e with
        | Ret b => Some b
        | Raise _ => None
        end
      else None
  end.

(** The preconditions of the save-draft click. *)
Definition gate_open (s : LoopState) : Prop :=
  (2 <= dom_stable_count s)%nat /\ photo_success s = true /\ selects_ok s = true
  /\ model_commit_ok s = true /\ mileage_commit_ok s = true.

(** A pass in which the save-draft click was made and worked, with the
    three commits confirmed in that same pass. *)
Definition saving_pass (r : PassRecord) : Prop :=
  In CallSaveDraft (pr_calls r) /\ draft_clicked (pr_before r) = false
  /\ draft_clicked (pr_after r) = true /\ gate_open (pr_after r)
  /\ In CallSelectFields (pr_calls r) /\ In CallModelCommit (pr_calls r)
  /\ In CallMileageCommit (pr_calls r).

(** C1 as the specification words it: success only in a pass whose
    stability counter is at least 2, with every check satisfied. *)
Definition success_as_specified (passes : list PassEnv) : Prop :=
  forall r, In r (reconcile initial_state passes) ->
    success (pr_after r) = true ->
    gate_open (pr_after r) /\ draft_clicked (pr_after r) = true
    /\ leave_clicked (pr_after r) = true.

(** A pass in which everything works except the leave-page step. *)
Definition steady_pass : PassEnv :=
  {| pe_wait := Ret tt; pe_upload_photo := true; pe_on_create_page := true;
     pe_reopen := Ret tt; pe_patch_dom := Ret true; pe_diagnostics := Ret tt;
     pe_select_fields := Ret true; pe_model_commit := Ret true;
     pe_mileage_commit := Ret true; pe_save_draft := true; pe_leave_page := false |}.

(** The form is rendered again: the DOM pass fails. *)
Definition rerender_pass : PassEnv :=
  {| pe_wait := Ret tt; pe_upload_photo := true; pe_on_create_page := true;
     pe_reopen := Ret tt; pe_patch_dom := Ret false; pe_diagnostics := Ret tt;
     pe_select_fields := Ret true; pe_model_commit := Ret true;
     pe_mileage_commit := Ret true; pe_save_draft := true; pe_leave_page := false |}.

(** The DOM pass works again and the leave-page step resolves. *)
Definition leaving_pass : PassEnv :=
  {| pe_wait := Ret tt; pe_upload_photo := true; pe_on_create_page := true;
     pe_reopen := Ret tt; pe_patch_dom := Ret true; pe_diagnostics := Ret tt;
     pe_select_fields := Ret true; pe_model_commit := Ret true;
     pe_mileage_commit := Ret true; pe_save_draft := true; pe_leave_page := true |}.

(** Two stable passes and a saved draft, a failed DOM pass, then a pass
    that succeeds as a whole. *)
Definition late_leave_run : list PassEnv :=
  [steady_pass; steady_pass; rerender_pass; leaving_pass].


(** ** Notions for the properties of [normalize_cookies] *)

(** The same-site mapping in the words of the specification. *)
Definition same_site_spec (lowered : string) : option string :=
  if String.eqb lowered "lax" then Some "Lax"
  else if String.eqb lowered "strict" then Some "Strict"
  else if String.eqb lowered "no_restriction" then Some "None"
  else if String.eqb lowered "none" then Some "None"
  else None.

Section CookieSchema.
Context `{PyBuiltins}.

(** The cookie is not session-scoped and carries an expiration date. *)
Definition expiry_due (c : gmap string json) : bool :=
  negb (py_truthy (default (JBool false) (c !! "session")))
  && has_value c "expirationDate".

(** What [normalize_cookies] needs of a raw cookie to return. *)
Definition well_formed_cookie (c : gmap string json) : Prop :=
  is_Some (c !! "name") /\ is_Some (c !! "value") /\ is_Some (c !! "domain")
  /\ (expiry_due c = true ->
      exists v x, c !! "expirationDate" = Some v /\ py_float v = Ret x).

(** The host schema of one cookie. *)
Definition cookie_schema (c item : gmap string json) : Prop :=
  item !! "name" = c !! "name"
  /\ item !! "value" = c !! "value"
  /\ item !! "domain" = c !! "domain"
  /\ item !! "path" = Some (default (JStr "/") (c !! "path"))
  /\ item !! "httpOnly" = Some (JBool (py_truthy (default (JBool false) (c !! "httpOnly"))))
  /\ item !! "secure" = Some (JBool (py_truthy (default (JBool true) (c !! "secure"))))
  /\ (c !! "path" = None -> item !! "path" = Some (JStr "/"))
  /\ (c !! "httpOnly" = None -> item !! "httpOnly" = Some (JBool false))
  /\ (c !! "secure" = None -> item !! "secure" = Some (JBool true))
  /\ (forall v, item !! "sameSite" = Some v <->
        exists source mapped,
          c !! "sameSite" = Some source /\ source <> JNull
          /\ same_site_spec (PyStr.lower (py_str source)) = Some mapped
          /\ v = JStr mapped)
  /\ (is_Some (item !! "expires") <-> expiry_due c = true)
  /\ (forall v, item !! "expires" = Some v ->
        exists source x, c !! "expirationDate" = Some source
                         /\ py_float source = Ret x /\ v = JFloat x).

End CookieSchema.

(** Stand-ins for the two conversions, for the examples: they are only
    applied to values the examples do not contain. *)
Definition sample_builtins : PyBuiltins :=
  {| py_repr := fun _ => "?"; py_parse_float := fun _ => Raise ValueError |}.

(** A persistent cookie as a browser extension exports it, and a session
    cookie that only has the three required entries. *)
Definition exported_cookie : gmap string json :=
  list_to_map [("name", JStr "c_user"); ("value", JStr "100001");
               ("domain", JStr ".facebook.com"); ("sameSite", JStr "no_restriction");
               ("session", JBool false); ("expirationDate", JInt 1790000000)].

Definition bare_session_cookie : gmap string json :=
  list_to_map [("name", JStr "presence"); ("value", JStr "x");
               ("domain", JStr ".facebook.com"); ("session", JBool true);
               ("sameSite", JStr "unspecified")].

(** ** Examples for the make input *)

(** A listing of a Toyota Avanza. *)
Definition avanza_config : ListingConfig :=
  {| target_url := TARGET_URL; selling_url := SELLING_URL;
     photo_path := "/project/front.jpg"; vehicle_type := "Mobil/Truk";
     year := "2025"; make := "Toyota"; model := "Avanza"; price := "200000";
     mileage := "120000"; description := "nego tipis km rendah";
     location := "Bekasi" |}.

(** A page on which the make input id names a plain text input. *)
Definition plain_input : Element :=
  {| tagName := "input"; control_value := ""; value_after_events := fun text => text |}.

Definition make_input_document : Document :=
  {| getElementById := {[ MAKE_INPUT_ID := plain_input ]}; signature_spans := [] |}.

(** ** Notions for the properties of [main] *)

(** How one listing ends. *)
Inductive RecordStatus :=
| PhotoUnresolved                 (* no photo: the reconciliation loop is not entered *)
| Completed                       (* [run_single_listing] returned [True] *)
| Incomplete (d : Diagnostic)     (* it returned [False], with these values *)
| Aborted (x : PyExc).            (* an exception left the loop over the listings *)

Definition is_completed (st : RecordStatus) : bool :=
  match st with Completed => true | _ => false end.

(** The values [run_single_listing] prints when it gives up. *)
Definition run_diagnostic (config : ListingConfig) (pg : RunPage) : Diagnostic :=
  diagnostic (final_state initial_state
    (reconcile initial_state (List.map (observe_pass config) (run_passes pg)))).

Section RecordStatuses.
Context `{PyBuiltins}.

Definition record_status (env : MainEnv) (g : Globals) (idx : nat)
    (listing : gmap string json) : RecordStatus :=
  match build_listing_config g listing (main_args env) (file_system env)
          TARGET_URL SELLING_URL with
  | None => PhotoUnresolved
  | Some config =>
      match run_single_listing config (listing_page env idx) with
      | Raise x => Aborted x
      | Ret (true, _) =>
          match selling_page env idx with
          | Ret _ => Completed
          | Raise x => Aborted x
          end
      | Ret (false, _) => Incomplete (run_diagnostic config (listing_page env idx))
      end
  end.

(** The module-level names after a listing was handled. *)
Definition globals_after (env : MainEnv) (g : Globals)
    (listing : gmap string json) : Globals :=
  match build_listing_config g listing (main_args env) (file_system env)
          TARGET_URL SELLING_URL with
  | None => g
  | Some config => apply_listing_globals config g
  end.

Fixpoint record_statuses (env : MainEnv) (g : Globals) (idx : nat)
    (listings : list (gmap string json)) : list RecordStatus :=
  match listings with
  | [] => []
  | listing :: rest =>
      record_status env g idx listing
      :: record_statuses env (globals_after env g listing) (S idx) rest
  end.

(** C7 as the specification words it: exit code 0 exactly when every
    record completes, and for every record that does not, the photo-less
    ones included, a line with the seven sub-checks. *)
Definition exit_as_specified (env : MainEnv) : Prop :=
  forall code lines,
    main env = Ret (code, lines) ->
    (code = 0 <->
     Forall (fun st => st = Completed)
       (record_statuses env builtin_globals 1 (main_listings env)))
    /\ (forall i st,
          record_statuses env builtin_globals 1 (main_listings env) !! i = Some st ->
          st <> Completed ->
          exists d, In (ErrIncompleteUpdate d) lines).

End RecordStatuses.


(** A project directory without any photo, and one with a single photo. *)
Definition empty_directory : FileSystem :=
  {| fs_existing := fun _ => None; fs_glob := fun _ => [] |}.

Definition one_photo_directory : FileSystem :=
  {| fs_existing := fun _ => None;
     fs_glob := fun pattern =>
       if String.eqb pattern "*.png" then ["/project/Front Page (1).png"] else [] |}.

(** A page on which nothing ever works: the run uses its passes up. *)
Definition stuck_run : RunPage :=
  {| run_open := Ret tt;
     run_passes :=
       [ {| pp_wait := Ret tt; pp_upload_photo := true; pp_on_create_page := true;
            pp_reopen := Ret tt; pp_patch_dom := Ret false; pp_diagnostics := Ret tt;
            pp_combo_for := fun _ => no_combo; pp_model := Ret numeric_model_page;
            pp_mileage := Ret []; pp_save_draft := false;
            pp_leave := absent_prompt_page |} ] |}.

(** A page on which everything works at once. *)
Definition smooth_pass : PassPage :=
  {| pp_wait := Ret tt; pp_upload_photo := true; pp_on_create_page := true;
     pp_reopen := Ret tt; pp_patch_dom := Ret true; pp_diagnostics := Ret tt;
     pp_combo_for := fun _ => no_combo;
     pp_model := Ret {| strict_match := []; loose_match := [] |};
     pp_mileage := Ret []; pp_save_draft := true; pp_leave := absent_prompt_page |}.

Definition smooth_run : RunPage :=
  {| run_open := Ret tt; run_passes := [smooth_pass; smooth_pass] |}.

(** No data file, no cookies, no photo. *)
Definition photoless_env : MainEnv :=
  {| main_args := default_args; data_file_content := FileAbsent;
     cookies_file_content := FileAbsent; file_system := empty_directory;
     listing_page := fun _ => smooth_run; selling_page := fun _ => Ret tt |}.

(** Two listings in the data file: the first never gets through, the
    second does. *)
Definition two_listings_env : MainEnv :=
  {| main_args := default_args;
     data_file_content :=
       FileJson (JDict {[ "listings" :=
         JList [JDict {[ "model" := JStr "Innova" ]}; JInt 7; JDict ∅] ]});
     cookies_file_content := FileAbsent; file_system := one_photo_directory;
     listing_page := fun idx => match idx with 1%nat => stuck_run | _ => smooth_run end;
     selling_page := fun _ => Ret tt |}.

(** A data file that parses but holds no listing. *)
Definition no_listing_env : MainEnv :=
  {| main_args := default_args;
     data_file_content := FileJson (JDict {[ "listings" := JList [JInt 1; JStr "x"] ]});
     cookies_file_content := FileAbsent; file_system := one_photo_directory;
     listing_page := fun _ => smooth_run; selling_page := fun _ => Ret tt |}.

(** The lines a run prints while it retries. *)
Definition is_transient (l : LogLine) : Prop := exists e, l = WarnTransient e.

(** The lines [main] prints for one listing, by the way the listing ends. *)
Definition record_lines (idx total : nat) (st : RecordStatus) (here : list LogLine) : Prop :=
  match st with
  | PhotoUnresolved => here = [ErrNoImage idx]
  | Completed =>
      exists warnings url,
        here = (InfoListingStart idx total :: warnings ++ [OpeningSellingPage url])%list
        /\ Forall is_transient warnings
  | Incomplete d =>
      exists warnings,
        here = (InfoListingStart idx total
                :: warnings ++ [ErrIncompleteUpdate d; ErrIncompleteListing idx])%list
        /\ Forall is_transient warnings
  | Aborted _ => False
  end.

(** The number of records that did not complete. *)
Fixpoint failed_records (sts : list RecordStatus) : nat :=
  match sts with
  | [] => 0
  | st :: rest => ((if is_completed st then 0 else 1) + failed_records rest)%nat
  end.

(* ===================================================================== *)
(** * Part I, continued: the helpers around the loop                       *)
(* ===================================================================== *)

(** ** [click_save_draft] *)

(** The answers of the page during one call: the three ways to find the
    button, each with its count and its click. *)
Record SaveDraftPage := {
  role_button_count : Outcome nat;   (* [role_btn.count()] *)
  role_button_click : Outcome unit;  (* [role_btn.click(timeout=3000)] *)
  container_count : Outcome nat;     (* the [div[role=none]] with the text *)
  container_click : Outcome unit;
  text_node_count : Outcome nat;     (* the [span] with exactly the text *)
  clickable_count : Outcome nat;     (* its nearest [div[role=none]] ancestor *)
  clickable_click : Outcome unit;
}.

(** The body of the [try] block. *)
Definition save_draft_steps (pg : SaveDraftPage) : Outcome bool :=
  n1 ← role_button_count pg;
  if (0 <? n1)%nat then _ ← role_button_click pg; Ret true
  else
    n2 ← container_count pg;
    if (0 <? n2)%nat then _ ← container_click pg; Ret true
    else
      n3 ← text_node_count pg;
      if (0 <? n3)%nat then
        n4 ← clickable_count pg;
        if (0 <? n4)%nat then _ ← clickable_click pg; Ret true
        else Ret false
      else Ret false.

Definition click_save_draft (pg : SaveDraftPage) : bool :=
  match save_draft_steps pg with
  | Ret b => b
  | Raise _ => false
  end.

(** ** [upload_photo] *)

Record UploadPage := {
  file_input_count : Outcome nat;    (* [file_input.count()] *)
  set_input_files : Outcome unit;    (* [file_input.set_input_files(...)] *)
  add_button_count : Outcome nat;    (* [add_btn.count()] *)
  choose_file : Outcome unit;
    (* the click under [expect_file_chooser] and [set_files] on the chooser *)
  remove_button_wait : Outcome unit;
    (* [wait_for(timeout=12000)] on the control that removes the photo *)
}.

Definition upload_steps (pg : UploadPage) : Outcome bool :=
  n ← file_input_count pg;
  if (0 <? n)%nat then
    _ ← set_input_files pg;
    _ ← remove_button_wait pg;
    Ret true
  else
    m ← add_button_count pg;
    if (m =? 0)%nat then Ret false
    else
      _ ← choose_file pg;
      _ ← remove_button_wait pg;
      Ret true.

Definition upload_photo (pg : UploadPage) : bool :=
  match upload_steps pg with
  | Ret b => b
  | Raise _ => false
  end.

(** ** [get_combobox_display_value] *)







(** ** [patch_dom]: how the page script and the caller settle the result *)

Module PatchDom.

(** The flags the page script has set when it reaches its [return]. *)
Record Flags := {
  vehiclePatched : bool;
  yearPatched : bool;
  secondYearPatched : bool;
  thirdYearPatched : bool;
  makePatched : bool;
  makeRequired : bool;
  toyotaInputPatched : bool;
  toyotaInputRequired : bool;
  vehicleTypePatched : bool;
  vehicleTypeRequired : bool;
  yearFieldPatched : bool;
  yearFieldRequired : bool;
  modelPatched : bool;
  modelRequired : bool;
  pricePatched : bool;
  priceRequired : bool;
  mileagePatched : bool;
  mileageRequired : bool;
  descriptionPatched : bool;
  descriptionRequired : bool;
  locationPatched : bool;
}.

Definition yearPatchedCount (f : Flags) : nat :=
  List.length (List.filter id [yearPatched f; secondYearPatched f; thirdYearPatched f]).

Definition toyotaGroupOk (f : Flags) : bool :=
  (negb (makeRequired f) && negb (toyotaInputRequired f))
  || makePatched f || toyotaInputPatched f.

Definition vehicleTypeGroupOk (f : Flags) : bool :=
  negb (vehicleTypeRequired f) || vehicleTypePatched f.

Definition yearFieldGroupOk (f : Flags) : bool :=
  negb (yearFieldRequired f) || yearFieldPatched f.

Definition modelGroupOk (f : Flags) : bool := true.

Definition priceGroupOk (f : Flags) : bool :=
  negb (priceRequired f) || pricePatched f.

Definition mileageGroupOk (f : Flags) : bool :=
  negb (mileageRequired f) || mileagePatched f.

Definition descriptionGroupOk (f : Flags) : bool :=
  negb (descriptionRequired f) || descriptionPatched f.

Definition legacyVehicleOk (f : Flags) : bool :=
  vehiclePatched f || vehicleTypeGroupOk f.

Definition legacyYearOk (f : Flags) : bool :=
  (1 <=? yearPatchedCount f)%nat || yearFieldGroupOk f.

(** The [ok] entry of the result. *)
Definition ok (f : Flags) : bool :=
  legacyVehicleOk f && legacyYearOk f && vehicleTypeGroupOk f && yearFieldGroupOk f
  && toyotaGroupOk f && modelGroupOk f && priceGroupOk f && mileageGroupOk f
  && descriptionGroupOk f && locationPatched f.

(** What the page script returns: the early result when no label of the
    form is on the page yet, or the flags. *)
Inductive ScriptResult :=
| PageNotReady
| Patched (f : Flags).

(** What [patch_dom] prints. *)
Inductive Report :=
| DomUpdated
| WaitingForForm
| PartialUpdate.

(** The Python side of [patch_dom], on the answer of [page.evaluate]. *)
Definition patch_dom (answer : Outcome ScriptResult) : Outcome (bool * Report) :=
  result ← answer;
  match result with
  | Patched f => if ok f then Ret (true, DomUpdated) else Ret (false, PartialUpdate)
  | PageNotReady => Ret (false, WaitingForForm)
  end.

End PatchDom.

(** ** [patch_dom]: writing a value and checking it *)


(** [setControlValue]: the value is written, the events are dispatched,
    and what the control then holds is compared with what was written. *)
Definition setControlValue (el : Element) (value : string)
    (validator : option (string -> string -> bool)) : bool :=
  let actual := value_after_events el value in
  match validator with
  | Some check => check actual value
  | None => String.eqb actual value
  end.

(** ** Notions for the properties of the helpers *)

(** The text a listing offers under a key, if it offers one. *)
Definition usable_value `{PyBuiltins} (listing : gmap string json) (key : string)
    : option string :=
  match listing !! key with
  | None | Some JNull => None
  | Some value =>
      if String.eqb (PyStr.strip (py_str value)) "" then None
      else Some (PyStr.strip (py_str value))
  end.

(** The field of the previous record that a listing falls back to. *)
Definition inherits `{PyBuiltins} (listing : gmap string json) (keys : list string)
    (previous built : string) : Prop :=
  Forall (fun key => usable_value listing key = None) keys -> built = previous.

(** A record handled earlier in the run, and what an empty listing is
    built into after it. *)
Definition innova_config : ListingConfig :=
  {| target_url := TARGET_URL; selling_url := SELLING_URL;
     photo_path := "/project/innova.jpg"; vehicle_type := "Mobil/Truk";
     year := "2021"; make := "Toyota"; model := "Innova"; price := "310000000";
     mileage := "45000"; description := "tangan pertama"; location := "Depok" |}.

Definition after_innova_config : ListingConfig :=
  {| target_url := TARGET_URL; selling_url := SELLING_URL;
     photo_path := "/project/Front Page (1).png"; vehicle_type := "Mobil/Truk";
     year := "2021"; make := "Toyota"; model := "Innova"; price := "310000000";
     mileage := "45000"; description := "tangan pertama"; location := "Depok" |}.

(** The listing a file entry stands for, if it is a dict. *)
Definition as_listing (item : json) : option (gmap string json) :=
  match item with
  | JDict d => Some d
  | _ => None
  end.

(** Where a listing of a data file can come from. *)
Definition listing_origin (f : JsonFile) (d : gmap string json) : Prop :=
  exists payload, f = FileJson payload /\
    ((exists items, payload = JList items /\ In (JDict d) items)
     \/ (exists entries items, payload = JDict entries
           /\ entries !! "listings" = Some (JList items) /\ In (JDict d) items)
     \/ (exists entries items, payload = JDict entries
           /\ entries !! "listing_data" = Some (JList items) /\ In (JDict d) items)
     \/ (exists entries, payload = JDict entries
           /\ entries !! "listing_data" = Some (JDict d))).

(** The containers [enforce_labeled_text_input_commit] goes through: the
    visible ones when there is one, all of them otherwise. *)
Definition active_text_containers (containers : list TextContainer) : list TextContainer :=
  match List.filter tc_visible containers with
  | [] => containers
  | visible_containers => visible_containers
  end.


(** What [select_combobox_option] answers for one field. *)
Definition field_result (combo_for : string -> ComboPage) (field : string * string)
    : Outcome bool :=
  select_combobox_option (combo_for field.1) field.2.

(** A turn of the leave-page polling in which a click lands: through one
    of the selectors, or through the script-level search after them. *)
Definition clicking_turn (p : LeavePoll) : Prop :=
  try_selectors (lp_locate p) leave_selectors = Ret true
  \/ (try_selectors (lp_locate p) leave_selectors = Ret false
      /\ lp_js_clicked p = Ret true).

(** A mileage input that shows the value with separators and a unit. *)
Definition formatted_mileage_page : list TextContainer :=
  [ {| tc_visible := false; tc_input := Some (Ret "0") |};
    {| tc_visible := true; tc_input := None |};
    {| tc_visible := true; tc_input := Some (Ret " 120.000 km ") |} ].

(** A prompt whose button takes the click in the second turn. *)
Definition clicking_poll : LeavePoll :=
  {| lp_locate := fun sel =>
       match sel with
       | ButtonByLabel => Ret [ {| trial_ok := false; click_ok := true |}; landing_click ]
       | _ => Ret []
       end;
     lp_js_clicked := Raise (PlaywrightError "not reached"); lp_wait := Ret tt |}.


(** The save button is found by its role, and the click on it times out,
    while the two other ways to reach it would work. *)
Definition stubborn_save_page : SaveDraftPage :=
  {| role_button_count := Ret 1%nat; role_button_click := Raise PlaywrightTimeoutError;
     container_count := Ret 1%nat; container_click := Ret tt;
     text_node_count := Ret 1%nat; clickable_count := Ret 1%nat;
     clickable_click := Ret tt |}.

(** The photo goes in through the file input, and the control that removes
    it never shows up. *)
Definition unconfirmed_upload_page : UploadPage :=
  {| file_input_count := Ret 1%nat; set_input_files := Ret tt;
     add_button_count := Ret 1%nat; choose_file := Ret tt;
     remove_button_wait := Raise PlaywrightTimeoutError |}.

(** The keys of a cookie in the host schema. *)
Definition host_cookie_keys : list string :=
  ["name"; "value"; "domain"; "path"; "httpOnly"; "secure"; "sameSite"; "expires"].

(** An exported cookie with the entries the host schema does not know, and
    one that lacks its name. *)
Definition verbose_cookie : gmap string json :=
  list_to_map [("name", JStr "xs"); ("value", JStr "42"); ("domain", JStr ".facebook.com");
               ("hostOnly", JBool false); ("storeId", JStr "0"); ("id", JInt 3);
               ("httpOnly", JBool true); ("secure", JBool true)].

Definition nameless_cookie : gmap string json :=
  list_to_map [("value", JStr "42"); ("domain", JStr ".facebook.com")].

(** A cookie file whose second cookie has no name. *)
Definition broken_cookies_env : MainEnv :=
  {| main_args := default_args; data_file_content := FileAbsent;
     cookies_file_content := FileJson (JList [JDict verbose_cookie; JDict nameless_cookie]);
     file_system := one_photo_directory;
     listing_page := fun _ => smooth_run; selling_page := fun _ => Ret tt |}.

(* ===================================================================== *)
(** * Part II: properties                                                  *)
(* ===================================================================== *)

(** ** Text: digits are not white space and have no case *)

Lemma digit_char_plain c :
  PyStr.isdigit_char c = true -> PyStr.isspace c = false /\ PyStr.lower_char c = c.
Proof.
  destruct c as [[] [] [] [] [] [] [] []]; vm_compute; intros; split; congruence.
Qed.

Lemma all_digits_lstrip s : PyStr.all_digits s = true -> PyStr.lstrip s = s.
Proof.
  destruct s as [|c r]; cbn; [reflexivity|].
  intros [Hc _]%andb_true_iff. apply digit_char_plain in Hc as [-> _]. reflexivity.
Qed.

Lemma all_digits_rstrip s : PyStr.all_digits s = true -> PyStr.rstrip s = s.
Proof.
  induction s as [|c r IH]; cbn; [reflexivity|].
  intros [Hc Hr]%andb_true_iff. rewrite (IH Hr).
  apply digit_char_plain in Hc as [-> _]. destruct r; reflexivity.
Qed.

Lemma all_digits_collapse s b :
  PyStr.all_digits s = true -> PyStr.collapse_from b s = s.
Proof.
  revert b. induction s as [|c r IH]; cbn; intros b; [reflexivity|].
  intros [Hc Hr]%andb_true_iff.
  apply digit_char_plain in Hc as [-> _]. by rewrite (IH false Hr).
Qed.

Lemma all_digits_lower s : PyStr.all_digits s = true -> PyStr.lower s = s.
Proof.
  induction s as [|c r IH]; cbn; [reflexivity|].
  intros [Hc Hr]%andb_true_iff.
  apply digit_char_plain in Hc as [_ ->]. by rewrite (IH Hr).
Qed.

Lemma isdigit_all_digits s : PyStr.isdigit s = true -> PyStr.all_digits s = true.
Proof. destruct s; [discriminate | exact id]. Qed.

(** Normalisation leaves a purely numeric text as it is. *)
Lemma norm_digits s : PyStr.isdigit s = true -> norm s = s.
Proof.
  intros Hd%isdigit_all_digits. unfold norm, PyStr.strip, PyStr.collapse_ws.
  rewrite all_digits_collapse, all_digits_lstrip, all_digits_rstrip, all_digits_lower; auto.
Qed.

(** ** [enforce_model_input_commit] *)

(** An accepted attempt always rests on a read-back whose two values equal
    the target under [norm]. *)
Lemma model_attempt_compares model_value a :
  model_attempt model_value a = true ->
  exists rb, deciding_readback a = Some rb
    /\ norm (PyStr.strip (rb_input rb)) = norm model_value
    /\ norm (PyStr.strip (rb_visible rb)) = norm model_value.
Proof.
  destruct a as [|rb retry]; cbn; [discriminate|].
  destruct (PyStr.isdigit (PyStr.strip (rb_input rb))) eqn:Hd1;
    destruct (PyStr.isdigit (PyStr.strip (rb_visible rb))) eqn:Hd2; cbn;
    rewrite ?andb_false_r, ?andb_true_r; cbn.
  1-3: destruct retry as [rb2|]; [|discriminate];
       intros [?%String.eqb_eq ?%String.eqb_eq]%andb_true_iff; eauto.
  destruct (_ && _) eqn:Hc; [|discriminate].
  apply andb_true_iff in Hc as [?%String.eqb_eq ?%String.eqb_eq]. eauto.
Qed.

(** For a target that is not purely numeric the guard holds on both
    branches: an accepted read-back is never purely numeric. *)
Lemma model_attempt_guard model_value a :
  PyStr.isdigit (norm model_value) = false ->
  model_attempt model_value a = true ->
  exists rb, deciding_readback a = Some rb
    /\ PyStr.isdigit (PyStr.strip (rb_input rb)) = false
    /\ PyStr.isdigit (PyStr.strip (rb_visible rb)) = false.
Proof.
  intros Htext (rb & Hrb & H1 & H2)%model_attempt_compares.
  exists rb. split; [assumption|]. split.
  - destruct (PyStr.isdigit (PyStr.strip (rb_input rb))) eqn:Hd; [|reflexivity].
    rewrite (norm_digits _ Hd) in H1. congruence.
  - destruct (PyStr.isdigit (PyStr.strip (rb_visible rb))) eqn:Hd; [|reflexivity].
    rewrite (norm_digits _ Hd) in H2. congruence.
Qed.

(** The first comparison applies the guard by itself: an attempt accepted
    without the fallback has no purely numeric read-back. *)
Lemma model_attempt_first_check model_value rb :
  model_attempt model_value (AttemptRead rb None) = true ->
  norm (PyStr.strip (rb_input rb)) = norm model_value
  /\ norm (PyStr.strip (rb_visible rb)) = norm model_value
  /\ PyStr.isdigit (PyStr.strip (rb_input rb)) = false
  /\ PyStr.isdigit (PyStr.strip (rb_visible rb)) = false.
Proof.
  cbn. destruct (_ && _) eqn:Hc.
  - intros _. apply andb_true_iff in Hc as [[?%String.eqb_eq ?%negb_true_iff]%andb_true_iff
                                              [?%String.eqb_eq ?%negb_true_iff]%andb_true_iff].
    auto.
  - destruct (_ || _); discriminate.
Qed.

(** The page script's own check of the model text refuses every purely
    numeric value. *)
Lemma modelTextMatches_rejects_digits modelInputValue v :
  Js.all_digits (Js.cleaned v) = true -> Js.modelTextMatches modelInputValue v = false.
Proof. unfold Js.modelTextMatches. intros ->. by rewrite orb_true_r. Qed.

(** C4, evaluated where the code departs from it.  With the model "2008"
    the input and the visible value both read back "2008": the first
    comparison refuses the value because it is purely numeric, the fallback
    types it again, compares without the numeric guard and reports the
    commit as verified. *)
Theorem model_commit_accepts_numeric_readback :
  enforce_model_input_commit (Ret numeric_model_page) "2008" = Ret true
  /\ deciding_readback (AttemptRead numeric_readback (Some numeric_readback))
     = Some numeric_readback
  /\ PyStr.isdigit (PyStr.strip (rb_input numeric_readback)) = true
  /\ PyStr.isdigit (PyStr.strip (rb_visible numeric_readback)) = true
  /\ Js.modelTextMatches "2008" (rb_input numeric_readback) = false.
Proof. vm_compute. auto. Qed.

(** ** [select_combobox_option] *)

Lemma click_option_clicked opts :
  click_option opts = Ret true ->
  exists o n, In o opts /\ opt_count o = Ret (S n) /\ click_lands (opt_try o) = true.
Proof.
  induction opts as [|o rest IH]; cbn; [discriminate|].
  destruct (opt_count o) as [[|n]|x] eqn:Hn; cbn; [| |discriminate].
  - intros (o' & n' & ? & ?)%IH. exists o', n'. tauto.
  - destruct (click_lands (opt_try o)) eqn:Hc.
    + intros _. exists o, n. tauto.
    + intros (o' & n' & ? & ?)%IH. exists o', n'. tauto.
Qed.

Lemma select_combobox_option_true pg option_text n :
  combo_count pg = Ret (S n) ->
  select_combobox_option pg option_text = Ret true ->
  click_option (option_patterns pg) = Ret true
  /\ (final_value pg = option_text
      \/ PyStr.contains (PyStr.lower option_text) (PyStr.lower (final_value pg)) = true).
Proof.
  unfold select_combobox_option. intros ->. cbn.
  destruct (negb (combo_click pg || combo_force_click pg)); [discriminate|].
  destruct (combo_opened_wait pg); cbn; [|discriminate].
  destruct (editable_count pg); cbn; [|discriminate].
  destruct (click_option (option_patterns pg)) as [[]|]; cbn; try discriminate.
  destruct (option_clicked_wait pg); cbn; [|discriminate].
  intros [= [Heq%String.eqb_eq | Hc]%orb_true_iff]; auto.
Qed.

(** C5.  Without a combobox for the label the field counts as satisfied.
    With one, the field is reported committed only when an option element
    took the click and the value read afterwards equals the option text or
    contains it without regard to case; text typed into the backing input
    does not make up for a missing option click. *)
Theorem select_combobox_option_commit (pg : ComboPage) (option_text : string) :
  (combo_count pg = Ret 0%nat -> select_combobox_option pg option_text = Ret true)
  /\ (forall n, combo_count pg = Ret (S n) ->
        select_combobox_option pg option_text = Ret true ->
        option_clicked pg
        /\ (final_value pg = option_text
            \/ PyStr.contains (PyStr.lower option_text) (PyStr.lower (final_value pg)) = true))
  /\ (forall n, combo_count pg = Ret (S n) ->
        typed_into_input pg = true ->
        ~ option_clicked pg ->
        select_combobox_option pg option_text <> Ret true).
Proof.
  split; [|split].
  - unfold select_combobox_option. intros ->. reflexivity.
  - intros n Hn Hsel.
    destruct (select_combobox_option_true _ _ _ Hn Hsel) as [Hclick Hval].
    split; [|exact Hval]. by apply click_option_clicked.
  - intros n Hn _ Hno Hsel.
    destruct (select_combobox_option_true _ _ _ Hn Hsel) as [Hclick _].
    apply Hno. by apply click_option_clicked.
Qed.

(** The three parts of the statement on concrete comboboxes: a variant
    without combobox, an option that takes the click, and text that was only
    typed. *)
Lemma select_combobox_option_commit_witness :
  select_combobox_option no_combo "Toyota" = Ret true
  /\ (option_clicked clicked_combo
      /\ (final_value clicked_combo = "Toyota"
          \/ PyStr.contains (PyStr.lower "Toyota")
               (PyStr.lower (final_value clicked_combo)) = true))
  /\ select_combobox_option typed_only_combo "Toyota" <> Ret true.
Proof.
  split; [|split].
  - apply (select_combobox_option_commit no_combo "Toyota"). reflexivity.
  - apply (proj1 (proj2 (select_combobox_option_commit clicked_combo "Toyota")) 0%nat);
      reflexivity.
  - apply (proj2 (proj2 (select_combobox_option_commit typed_only_combo "Toyota")) 0%nat).
    + reflexivity.
    + reflexivity.
    + intros (o & n & Hin & Hcount & Hland).
      cbn in Hin. destruct Hin as [<-|[<-|[]]]; cbn in *; discriminate.
Defined.

(** [enforce_select_fields] reports success only when every field did. *)
Lemma enforce_select_fields_from_true combo_for fields ok :
  enforce_select_fields_from ok combo_for fields = Ret true ->
  ok = true
  /\ Forall (fun f => select_combobox_option (combo_for f.1) f.2 = Ret true) fields.
Proof.
  revert ok. induction fields as [|[label_text option_text] rest IH]; cbn; intros ok.
  - intros [= ->]. split; constructor.
  - destruct (select_combobox_option (combo_for label_text) option_text)
      as [field_ok|] eqn:Hsel; cbn; [|discriminate].
    intros [[-> ->]%andb_true_iff Hrest]%IH. split; [reflexivity|].
    constructor; assumption.
Qed.

(** ** [click_tinggalkan_halaman] *)

Lemma try_selectors_false locate sels :
  try_selectors locate sels = Ret false <->
  (forall sel, In sel sels ->
     exists items, locate sel = Ret items /\ existsb click_lands items = false).
Proof.
  induction sels as [|sel rest IH]; cbn.
  - split; [intros _ ? []|reflexivity].
  - unfold click_first_actionable. destruct (locate sel) as [items|x] eqn:Hl; cbn.
    + destruct (existsb click_lands items) eqn:Hex.
      * split; [discriminate|]. intros Hall.
        destruct (Hall sel (or_introl eq_refl)) as (items' & Hitems & Hno).
        rewrite Hl in Hitems. congruence.
      * rewrite IH. split.
        -- intros Hall sel' [<-|Hin]; [eauto|auto].
        -- intros Hall sel' Hin. apply Hall. by right.
    + split; [discriminate|]. intros Hall.
      destruct (Hall sel (or_introl eq_refl)) as (items' & Hitems & _). congruence.
Qed.

(** The window runs out exactly when every turn is quiet. *)
Lemma poll_leave_false turns :
  poll_leave turns = Ret false <-> Forall quiet_turn turns.
Proof.
  induction turns as [|p rest IH]; cbn [poll_leave].
  - split; [constructor|reflexivity].
  - rewrite Forall_cons_iff, <- IH. unfold quiet_turn at 1.
    rewrite <- try_selectors_false.
    destruct (try_selectors (lp_locate p) leave_selectors) as [[]|x]; cbn.
    1, 3: split; [discriminate | intros [[? _] _]; discriminate].
    destruct (lp_js_clicked p) as [[]|y]; cbn.
    1, 3: split; [discriminate | intros [(_ & ? & _) _]; discriminate].
    destruct (lp_wait p) as [u|z]; cbn.
    + tauto.
    + split; [discriminate | intros [(_ & _ & ?) _]; discriminate].
Qed.

(** C6, amended.  When the polling window runs to its end with no page
    call raising and no click landing, the step succeeds exactly when no
    confirmation element is visible afterwards (a visibility probe that
    raises counts as not visible).  The step fails only in two cases: a
    confirmation element is still visible after such a window, or a page
    call raised during the window. *)
Theorem leave_page_absence (pg : LeavePage) :
  (Forall quiet_turn (polls pg) ->
     (click_tinggalkan_halaman pg = true <-> confirmation_visible pg <> Ret true))
  /\ (click_tinggalkan_halaman pg = false ->
        (Forall quiet_turn (polls pg) /\ confirmation_visible pg = Ret true)
        \/ (exists x, poll_leave (polls pg) = Raise x)).
Proof.
  unfold click_tinggalkan_halaman, leave_confirmation_present. split.
  - intros ->%poll_leave_false.
    destruct (confirmation_visible pg) as [[]|x]; cbn; split; congruence.
  - destruct (poll_leave (polls pg)) as [[]|x] eqn:Hpoll; [discriminate| |eauto].
    apply poll_leave_false in Hpoll.
    destruct (confirmation_visible pg) as [[]|y]; cbn; try discriminate. auto.
Qed.

(** The statement on a page that never shows the prompt. *)
Lemma leave_page_absence_witness :
  click_tinggalkan_halaman absent_prompt_page = true.
Proof.
  apply (proj1 (leave_page_absence absent_prompt_page)).
  - repeat constructor; cbn; eauto.
  - discriminate.
Defined.

(** C6 as worded fails when the page navigates during polling: no click has
    landed and no prompt is visible, and the step reports failure. *)
Lemma leave_page_fails_without_prompt :
  ~ leave_page_as_specified navigating_leave_page.
Proof.
  intros [Habsent _].
  assert (click_tinggalkan_halaman navigating_leave_page = true) as Hclick.
  { apply Habsent; [discriminate | reflexivity]. }
  discriminate Hclick.
Qed.

(** ** One pass of the loop *)

(** The proofs about one pass follow the body through every branch. *)
Ltac unfold_body :=
  unfold run_pass, loop_body, prepare_pass, dom_pass, enforce_commits, side_effects,
    when, mbind, body_bind, bind_body, call, assign, read_state, unit_body in *.

Ltac split_body :=
  repeat (cbn [fst snd] in *;
    match goal with
    | |- context [match ?x with _ => _ end] =>
        lazymatch x with
        | context [match _ with _ => _ end] => fail
        | _ => destruct x eqn:?
        end
    end).

Ltac state_facts :=
  unfold save_gate, all_checks, breaks, gate_open, dom_answer, returns in *; cbn in *;
  repeat match goal with
  | H : _ && _ = true |- _ => apply andb_true_iff in H; destruct H
  | H : _ || _ = false |- _ => apply orb_false_iff in H; destruct H
  | H : negb _ = true |- _ => apply negb_true_iff in H
  | H : negb _ = false |- _ => apply negb_false_iff in H
  | H : (_ <=? _)%nat = true |- _ => apply Nat.leb_le in H
  | H : (_ <=? _)%nat = false |- _ => apply Nat.leb_gt in H
  end; simplify_eq/=.

Ltac body_crush :=
  unfold_body; cbn; split_body; state_facts;
  try solve [intuition (try discriminate; try congruence; try lia)].

(** The counter after a pass, from the counter before it and the answer
    of the DOM pass. *)
Lemma run_pass_counter s e :
  dom_stable_count (pr_after (run_pass s e)) =
  match dom_answer e with
  | Some true => S (dom_stable_count s)
  | Some false => 0%nat
  | None => dom_stable_count s
  end.
Proof. destruct e, s. body_crush. Qed.

(** A pass that raises leaves [success] as it was. *)
Lemma run_pass_raised s e x :
  pr_raised (run_pass s e) = Some x -> success (pr_after (run_pass s e)) = success s.
Proof. destruct e, s. body_crush. Qed.

(** A pass that runs to its end evaluates [success]; its DOM pass has
    run, so that [dom_success] brings a counter of at least one. *)
Lemma run_pass_completed s e :
  pr_raised (run_pass s e) = None ->
  success (pr_after (run_pass s e)) = all_checks (pr_after (run_pass s e))
  /\ (dom_success (pr_after (run_pass s e)) = true ->
      (1 <= dom_stable_count (pr_after (run_pass s e)))%nat).
Proof. destruct e, s. body_crush. Qed.

(** The save-draft click is made only behind its gate, and only in a pass
    that has just run the three commits. *)
Lemma run_pass_save_gate s e :
  In CallSaveDraft (pr_calls (run_pass s e)) ->
  draft_clicked s = false
  /\ gate_open (pr_after (run_pass s e))
  /\ In CallSelectFields (pr_calls (run_pass s e))
  /\ In CallModelCommit (pr_calls (run_pass s e))
  /\ In CallMileageCommit (pr_calls (run_pass s e)).
Proof. destruct e, s. body_crush. Qed.

(** [draft_clicked] becomes true only through the save-draft click. *)
Lemma run_pass_draft_origin s e :
  draft_clicked (pr_after (run_pass s e)) = true ->
  draft_clicked s = true \/ In CallSaveDraft (pr_calls (run_pass s e)).
Proof. destruct e, s. body_crush. Qed.

Lemma run_pass_before s e : pr_before (run_pass s e) = s.
Proof. unfold run_pass. destruct (loop_body e s) as [[|] []]; reflexivity. Qed.

Lemma run_pass_saving s e :
  draft_clicked s = false ->
  draft_clicked (pr_after (run_pass s e)) = true ->
  saving_pass (run_pass s e).
Proof.
  intros Hbefore Hafter.
  destruct (run_pass_draft_origin s e Hafter) as [Hs | Hcall]; [congruence|].
  destruct (run_pass_save_gate s e Hcall) as (? & ? & ? & ? & ?).
  unfold saving_pass. rewrite run_pass_before. tauto.
Qed.

Lemma run_pass_no_break s e :
  success s = false -> breaks (run_pass s e) = false ->
  success (pr_after (run_pass s e)) = false.
Proof.
  intros Hs. unfold breaks.
  destruct (pr_raised (run_pass s e)) as [x|] eqn:Hr; [|exact id].
  intros _. by rewrite (run_pass_raised s e x Hr).
Qed.

Lemma run_pass_success s e :
  success s = false -> success (pr_after (run_pass s e)) = true ->
  breaks (run_pass s e) = true.
Proof.
  intros Hs Hafter. destruct (breaks (run_pass s e)) eqn:Hb; [reflexivity|].
  rewrite (run_pass_no_break s e Hs Hb) in Hafter. discriminate.
Qed.

(** ** The loop *)

(** C2.  In every turn of the loop whose DOM pass returns, the stability
    counter is one more than before when the pass succeeded and exactly
    zero when it failed; a turn that raises before the DOM pass answers
    leaves the counter alone.  So the counter never decreases over turns
    whose DOM pass does not fail. *)
Theorem stability_counter_step (s : LoopState) (e : PassEnv) :
  dom_stable_count (pr_after (run_pass s e)) =
    match dom_answer e with
    | Some true => S (dom_stable_count s)
    | Some false => 0%nat
    | None => dom_stable_count s
    end
  /\ (dom_answer e <> Some false ->
      (dom_stable_count s <= dom_stable_count (pr_after (run_pass s e)))%nat).
Proof.
  split; [apply run_pass_counter|].
  rewrite run_pass_counter. destruct (dom_answer e) as [[]|]; [lia|congruence|lia].
Qed.

Lemma last_cons_first {A} (l : list A) : forall x d,
  List.last (x :: l) d = List.last l x.
Proof.
  induction l as [|y l IH]; intros x d; [reflexivity|].
  change (List.last (x :: y :: l) d) with (List.last (y :: l) d).
  rewrite (IH y d), (IH y x). reflexivity.
Qed.

Lemma final_state_cons s r h : final_state s (r :: h) = final_state (pr_after r) h.
Proof. unfold final_state. cbn [List.map]. apply last_cons_first. Qed.

Lemma final_state_reconcile s e rest :
  final_state s (reconcile s (e :: rest)) =
  if breaks (run_pass s e) then pr_after (run_pass s e)
  else final_state (pr_after (run_pass s e)) (reconcile (pr_after (run_pass s e)) rest).
Proof. cbn [reconcile]. rewrite final_state_cons. by destruct (breaks _). Qed.

(** Over a run of turns whose DOM passes all succeed, the counter grows by
    one per executed turn. *)
Lemma stability_counter_run passes : forall s,
  Forall (fun e => dom_answer e = Some true) passes ->
  dom_stable_count (final_state s (reconcile s passes))
  = (dom_stable_count s + List.length (reconcile s passes))%nat.
Proof.
  induction passes as [|e rest IH]; intros s Hall.
  - cbn. lia.
  - apply Forall_cons_iff in Hall as [He Hrest].
    rewrite final_state_reconcile. cbn [reconcile List.length].
    destruct (breaks (run_pass s e)).
    + cbn. rewrite run_pass_counter, He. lia.
    + rewrite (IH _ Hrest), run_pass_counter, He. lia.
Qed.

(** Every record of the history is a pass of the loop body, started with
    [success] still false. *)
Lemma reconcile_records passes : forall s r,
  success s = false -> In r (reconcile s passes) ->
  exists s0 e, r = run_pass s0 e /\ success s0 = false.
Proof.
  induction passes as [|e rest IH]; intros s r Hs; cbn [reconcile]; [intros []|].
  intros [<-|Hin]; [eauto|].
  destruct (breaks (run_pass s e)) eqn:Hb; [destruct Hin|].
  apply (IH (pr_after (run_pass s e))); [|assumption].
  by apply run_pass_no_break.
Qed.

(** The pass that reaches [success] is the last one: the loop breaks. *)
Lemma reconcile_success_last passes : forall s pre r post,
  success s = false ->
  reconcile s passes = (pre ++ r :: post)%list ->
  success (pr_after r) = true -> post = [].
Proof.
  induction passes as [|e rest IH]; intros s pre r post Hs; cbn [reconcile].
  - destruct pre; discriminate.
  - destruct pre as [|r1 pre]; cbn; intros [= Hr Htail] Hsucc.
    + subst r. rewrite (run_pass_success s e Hs Hsucc) in Htail. congruence.
    + subst r1. destruct (breaks (run_pass s e)) eqn:Hb.
      * destruct pre; discriminate.
      * apply (IH _ _ _ _ (run_pass_no_break s e Hs Hb) Htail Hsucc).
Qed.

(** Where [draft_clicked] holds, a saving pass has happened before. *)
Lemma reconcile_saving passes : forall s pre r post,
  success s = false ->
  reconcile s passes = (pre ++ r :: post)%list ->
  draft_clicked (pr_after r) = true ->
  draft_clicked s = true \/ exists r0, In r0 (pre ++ [r])%list /\ saving_pass r0.
Proof.
  induction passes as [|e rest IH]; intros s pre r post Hs; cbn [reconcile].
  - destruct pre; discriminate.
  - destruct (draft_clicked s) eqn:Hdraft; [auto|].
    destruct pre as [|r1 pre]; cbn; intros [= Hr Htail] Hafter; right.
    + subst r. exists (run_pass s e). split; [by left|]. by apply run_pass_saving.
    + subst r1. destruct (breaks (run_pass s e)) eqn:Hb.
      { destruct pre; discriminate. }
      destruct (IH _ _ _ _ (run_pass_no_break s e Hs Hb) Htail Hafter)
        as [Hdone | (r0 & Hin & Hsave)].
      * exists (run_pass s e). split; [by left|]. by apply run_pass_saving.
      * exists r0. split; [by right|assumption].
Qed.

(** C1, amended.  A run reaches overall success only in a pass that is the
    last one executed, whose own DOM pass succeeded (stability counter at
    least 1), with photo, selects, model, mileage, save-draft and leave-page
    flags all set; the save-draft click then worked in that pass or an
    earlier one, in which the stability counter was at least 2 and photo,
    selects, model and mileage had all been confirmed, the three commits in
    that very pass.  Moreover no pass makes the save-draft click unless its
    stability counter is at least 2 with photo, selects, model and mileage
    all confirmed. *)
Theorem success_requires (passes : list PassEnv) (pre post : list PassRecord)
    (r : PassRecord) :
  reconcile initial_state passes = (pre ++ r :: post)%list ->
  success (pr_after r) = true ->
  post = []
  /\ (1 <= dom_stable_count (pr_after r))%nat
  /\ dom_success (pr_after r) = true
  /\ photo_success (pr_after r) = true
  /\ selects_ok (pr_after r) = true
  /\ model_commit_ok (pr_after r) = true
  /\ mileage_commit_ok (pr_after r) = true
  /\ draft_clicked (pr_after r) = true
  /\ leave_clicked (pr_after r) = true
  /\ (exists r0, In r0 (pre ++ [r])%list /\ saving_pass r0)
  /\ (forall r', In r' (reconcile initial_state passes) ->
        In CallSaveDraft (pr_calls r') ->
        draft_clicked (pr_before r') = false /\ gate_open (pr_after r')).
Proof.
  intros Hhist Hsucc.
  assert (In r (reconcile initial_state passes)) as Hin.
  { rewrite Hhist. apply in_or_app. right. by left. }
  destruct (reconcile_records passes initial_state _ eq_refl Hin) as (s0 & e & -> & Hs0).
  pose proof (run_pass_success s0 e Hs0 Hsucc) as Hbreak.
  assert (pr_raised (run_pass s0 e) = None) as Hnone.
  { unfold breaks in Hbreak. destruct (pr_raised (run_pass s0 e)); [discriminate|reflexivity]. }
  destruct (run_pass_completed s0 e Hnone) as [Hall Hcount].
  rewrite Hsucc in Hall. symmetry in Hall. unfold all_checks in Hall.
  repeat (apply andb_true_iff in Hall as [Hall ?]).
  split; [exact (reconcile_success_last passes initial_state pre _ post eq_refl Hhist Hsucc)|].
  repeat (split; [solve [auto]|]). split.
  - destruct (reconcile_saving passes initial_state pre _ post eq_refl Hhist)
      as [Hinit|Hsave]; [assumption|discriminate Hinit|exact Hsave].
  - intros r' Hin' Hcall.
    destruct (reconcile_records passes initial_state _ eq_refl Hin') as (s1 & e1 & -> & _).
    rewrite run_pass_before.
    destruct (run_pass_save_gate s1 e1 Hcall) as (? & ? & _). auto.
Qed.

(** The statement on a run of two passes: the photo goes up in the first,
    the second is stable, saves the draft and leaves the page. *)
Lemma success_requires_witness :
  (1 <= dom_stable_count
          (pr_after (run_pass (pr_after (run_pass initial_state steady_pass)) leaving_pass)))%nat
  /\ exists r0,
       In r0 ([run_pass initial_state steady_pass]
              ++ [run_pass (pr_after (run_pass initial_state steady_pass)) leaving_pass])%list
       /\ saving_pass r0.
Proof.
  assert (reconcile initial_state [steady_pass; leaving_pass]
          = ([run_pass initial_state steady_pass]
             ++ run_pass (pr_after (run_pass initial_state steady_pass)) leaving_pass
             :: [])%list) as Hhistory by (vm_compute; reflexivity).
  assert (success (pr_after (run_pass (pr_after (run_pass initial_state steady_pass))
                               leaving_pass)) = true) as Hsuccess
    by (vm_compute; reflexivity).
  destruct (success_requires _ _ _ _ Hhistory Hsuccess)
    as (_ & Hcount & _ & _ & _ & _ & _ & _ & _ & Hsave & _).
  split; [exact Hcount | exact Hsave].
Defined.

(** C1 as worded fails on [late_leave_run]: the draft is saved in the
    second pass, the DOM pass of the third fails and resets the counter,
    and the fourth pass reaches success with a stability counter of 1. *)
Lemma success_with_counter_below_two :
  ~ success_as_specified late_leave_run.
Proof.
  intros Hspec.
  destruct (Hspec (run_pass (pr_after (run_pass (pr_after (run_pass
              (pr_after (run_pass initial_state steady_pass)) steady_pass))
              rerender_pass)) leaving_pass)) as [[Hcount _] _].
  - vm_compute. tauto.
  - vm_compute. reflexivity.
  - vm_compute in Hcount. lia.
Qed.



(** ** [normalize_cookies] *)

Lemma lookup_insert_string {A} (m : gmap string A) (k l : string) (v : A) :
  <[k:=v]> m !! l = if String.eqb l k then Some v else m !! l.
Proof.
  destruct (String.eqb_spec l k) as [->|Hne].
  - apply lookup_insert_eq.
  - apply lookup_insert_ne. congruence.
Qed.

Lemma same_site_map_spec lowered : same_site_map !! lowered = same_site_spec lowered.
Proof.
  unfold same_site_map, same_site_spec. cbn.
  rewrite !lookup_insert_string. by rewrite lookup_empty.
Qed.

Section CookieProperties.
Context `{PyBuiltins}.

Lemma with_same_site_other c item key :
  key <> "sameSite" -> with_same_site c item !! key = item !! key.
Proof.
  intros Hkey. unfold with_same_site.
  destruct (c !! "sameSite") as [[]|]; try reflexivity;
    destruct (same_site_map !! _) as [mapped|]; try reflexivity;
    destruct (String.eqb mapped ""); try reflexivity;
    by rewrite lookup_insert_ne.
Qed.

Lemma with_same_site_lookup c item v :
  item !! "sameSite" = None ->
  with_same_site c item !! "sameSite" = Some v <->
  exists source mapped,
    c !! "sameSite" = Some source /\ source <> JNull
    /\ same_site_spec (PyStr.lower (py_str source)) = Some mapped
    /\ v = JStr mapped.
Proof.
  intros Hfresh. unfold with_same_site.
  assert (forall k mapped, same_site_spec k = Some mapped -> String.eqb mapped "" = false)
    as Hnonempty.
  { intros k mapped. unfold same_site_spec.
    repeat destruct (String.eqb k _); intros [= <-]; reflexivity. }
  destruct (c !! "sameSite") as [[]|] eqn:Hsrc; rewrite ?same_site_map_spec;
    try (destruct (same_site_spec _) as [mapped|] eqn:Hm;
         [rewrite (Hnonempty _ _ Hm), lookup_insert_eq|]);
    rewrite ?Hfresh;
    (split;
     [ intros ?; simplify_eq; eexists _, _; repeat split; eauto; discriminate
     | intros (? & ? & ? & ? & ? & ?); simplify_eq; done ]).
Qed.

Lemma with_expires_other c item item' key :
  key <> "expires" -> with_expires c item = Ret item' -> item' !! key = item !! key.
Proof.
  intros Hkey. unfold with_expires. fold (expiry_due c).
  destruct (expiry_due c); [|by intros [= <-]].
  destruct (subscript c "expirationDate") as [v|]; cbn; [|discriminate].
  destruct (py_float v) as [x|]; cbn; [|discriminate].
  intros [= <-]. by rewrite lookup_insert_ne.
Qed.

Lemma with_expires_lookup c item item' :
  item !! "expires" = None ->
  with_expires c item = Ret item' ->
  (is_Some (item' !! "expires") <-> expiry_due c = true)
  /\ (forall v, item' !! "expires" = Some v ->
        exists source x, c !! "expirationDate" = Some source
                         /\ py_float source = Ret x /\ v = JFloat x).
Proof.
  intros Hfresh. unfold with_expires, subscript. fold (expiry_due c).
  destruct (expiry_due c).
  - destruct (c !! "expirationDate") as [source|] eqn:Hsrc; cbn; [|discriminate].
    destruct (py_float source) as [x|] eqn:Hx; cbn; [|discriminate].
    intros [= <-]. rewrite lookup_insert_eq. split.
    + split; [reflexivity | eauto].
    + intros v [= <-]. eauto.
  - intros [= <-]. rewrite Hfresh. split.
    + split; [intros [? ?]; discriminate | discriminate].
    + discriminate.
Qed.

Lemma with_expires_returns c item :
  (expiry_due c = true ->
   exists v x, c !! "expirationDate" = Some v /\ py_float v = Ret x) ->
  exists item', with_expires c item = Ret item'.
Proof.
  intros Hdue. unfold with_expires, subscript. fold (expiry_due c).
  destruct (expiry_due c); [|eauto].
  destruct (Hdue eq_refl) as (v & x & -> & Hx). cbn. rewrite Hx. cbn. eauto.
Qed.

(** One cookie that is returned has the host schema. *)
Lemma normalize_cookie_schema c item :
  normalize_cookie c = Ret item -> cookie_schema c item.
Proof.
  unfold normalize_cookie, subscript.
  destruct (c !! "name") as [name|] eqn:Hname; cbn; [|discriminate].
  destruct (c !! "value") as [value|] eqn:Hvalue; cbn; [|discriminate].
  destruct (c !! "domain") as [domain|] eqn:Hdomain; cbn; [|discriminate].
  set (base := <["secure" := _]> _). intros Hitem.
  assert (forall key, key <> "expires" -> key <> "sameSite" ->
            item !! key = base !! key) as Hplain.
  { intros key He Hs.
    rewrite (with_expires_other c (with_same_site c base) item key He Hitem).
    by apply with_same_site_other. }
  assert (item !! "sameSite" = with_same_site c base !! "sameSite") as Hsame.
  { apply (with_expires_other c); [discriminate | exact Hitem]. }
  assert (with_same_site c base !! "expires" = None) as Hfresh.
  { rewrite with_same_site_other by discriminate.
    unfold base. rewrite !lookup_insert_string. cbn. apply lookup_empty. }
  assert (base !! "sameSite" = None) as Hfresh'.
  { unfold base. rewrite !lookup_insert_string. cbn. apply lookup_empty. }
  destruct (with_expires_lookup c _ item Hfresh Hitem) as [Hdue Hvalue'].
  assert (item !! "path" = Some (default (JStr "/") (c !! "path"))) as Hpath.
  { rewrite Hplain by discriminate. unfold base. by rewrite !lookup_insert_string. }
  assert (item !! "httpOnly"
          = Some (JBool (py_truthy (default (JBool false) (c !! "httpOnly"))))) as Hhttp.
  { rewrite Hplain by discriminate. unfold base. by rewrite !lookup_insert_string. }
  assert (item !! "secure"
          = Some (JBool (py_truthy (default (JBool true) (c !! "secure"))))) as Hsecure.
  { rewrite Hplain by discriminate. unfold base. by rewrite !lookup_insert_string. }
  unfold cookie_schema. split; [|split; [|split]].
  1-3: rewrite Hplain by discriminate; unfold base; by rewrite !lookup_insert_string.
  repeat (split; [assumption|]).
  split; [intros Hnone; by rewrite Hpath, Hnone|].
  split; [intros Hnone; by rewrite Hhttp, Hnone|].
  split; [intros Hnone; by rewrite Hsecure, Hnone|].
  split; [|split; assumption].
  intros v. rewrite Hsame. by apply with_same_site_lookup.
Qed.

Lemma normalize_cookie_returns c :
  well_formed_cookie c -> exists item, normalize_cookie c = Ret item.
Proof.
  intros ([name Hname] & [value Hvalue] & [domain Hdomain] & Hdue).
  unfold normalize_cookie, subscript. rewrite Hname, Hvalue, Hdomain. cbn.
  by apply with_expires_returns.
Qed.

(** C9.  On raw cookies that carry name, value and domain (and an
    expiration date that [float] accepts where one is due),
    [normalize_cookies] returns one item per cookie, in order, and every
    item has the host schema: path defaults to "/", httpOnly to false,
    secure to true; sameSite is present exactly when the source value,
    lower-cased, is lax, strict, no_restriction or none, and is then Lax,
    Strict, None, None; expires is present exactly when the session entry
    is falsy and expirationDate has a value, and is that value as a
    float. *)
Theorem normalize_cookies_schema (raw_cookies : list (gmap string json)) :
  Forall well_formed_cookie raw_cookies ->
  exists normalized,
    normalize_cookies raw_cookies = Ret normalized
    /\ Forall2 cookie_schema raw_cookies normalized.
Proof.
  induction raw_cookies as [|c rest IH]; intros Hwf.
  - exists []. split; [reflexivity | constructor].
  - apply Forall_cons_iff in Hwf as [Hc Hrest].
    destruct (normalize_cookie_returns c Hc) as [item Hitem].
    destruct (IH Hrest) as (normalized & Hnorm & Hschema).
    exists (item :: normalized). split.
    + cbn [normalize_cookies]. rewrite Hitem. cbn. rewrite Hnorm. reflexivity.
    + constructor; [by apply normalize_cookie_schema | assumption].
Qed.

(** A raw cookie without one of the three required entries makes
    [normalize_cookies] raise [KeyError]. *)
Lemma normalize_cookie_missing_name c :
  c !! "name" = None -> normalize_cookie c = Raise (KeyError "name").
Proof. intros Hname. unfold normalize_cookie, subscript. by rewrite Hname. Qed.

End CookieProperties.

Lemma same_site_spec_cases lowered mapped :
  same_site_spec lowered = Some mapped <->
  (lowered = "lax" /\ mapped = "Lax") \/ (lowered = "strict" /\ mapped = "Strict")
  \/ (lowered = "no_restriction" /\ mapped = "None")
  \/ (lowered = "none" /\ mapped = "None").
Proof.
  unfold same_site_spec.
  destruct (String.eqb_spec lowered "lax") as [->|?];
    [split; [intros [= <-]; auto | intros [[_ ->]|[[? _]|[[? _]|[? _]]]]; done]|].
  destruct (String.eqb_spec lowered "strict") as [->|?];
    [split; [intros [= <-]; auto | intros [[? _]|[[_ ->]|[[? _]|[? _]]]]; done]|].
  destruct (String.eqb_spec lowered "no_restriction") as [->|?];
    [split; [intros [= <-]; auto 6 | intros [[? _]|[[? _]|[[_ ->]|[? _]]]]; done]|].
  destruct (String.eqb_spec lowered "none") as [->|?];
    [split; [intros [= <-]; auto 6 | intros [[? _]|[[? _]|[[? _]|[_ ->]]]]; done]|].
  split; [discriminate | intros [[? _]|[[? _]|[[? _]|[? _]]]]; done].
Qed.

(** The statement on an exported persistent cookie and a bare session
    cookie. *)
Lemma normalize_cookies_schema_witness :
  exists normalized,
    @normalize_cookies sample_builtins [exported_cookie; bare_session_cookie] = Ret normalized
    /\ Forall2 (@cookie_schema sample_builtins)
         [exported_cookie; bare_session_cookie] normalized.
Proof.
  apply (@normalize_cookies_schema sample_builtins).
  apply Forall_cons_iff. split; [|apply Forall_cons_iff; split; [|constructor]].
  - split; [exists (JStr "c_user"); reflexivity|].
    split; [exists (JStr "100001"); reflexivity|].
    split; [exists (JStr ".facebook.com"); reflexivity|].
    intros _. exists (JInt 1790000000), 1790000000%float. split; reflexivity.
  - split; [exists (JStr "presence"); reflexivity|].
    split; [exists (JStr "x"); reflexivity|].
    split; [exists (JStr ".facebook.com"); reflexivity|].
    intros Hdue. vm_compute in Hdue. discriminate Hdue.
Defined.

(** What the two cookies become. *)
Example normalize_cookies_sample :
  match @normalize_cookies sample_builtins [exported_cookie; bare_session_cookie] with
  | Ret [persistent; session] =>
      persistent !! "sameSite" = Some (JStr "None")
      /\ persistent !! "expires" = Some (JFloat 1790000000)
      /\ persistent !! "path" = Some (JStr "/")
      /\ persistent !! "secure" = Some (JBool true)
      /\ persistent !! "httpOnly" = Some (JBool false)
      /\ session !! "sameSite" = None
      /\ session !! "expires" = None
  | _ => False
  end.
Proof. vm_compute. repeat split. Qed.

(** ** [apply_listing_globals] and the make input *)

Lemma patch_make_input_writes a doc w :
  In w (make_writes (patch_make_input a doc)) ->
  written_id w = makeInputId a /\ written_text w = makeInputValue a.
Proof.
  unfold patch_make_input.
  destruct (getElementById doc !! makeInputId a) as [el|];
    [destruct (String.eqb (tagName el) "input")|];
    try destruct (find_span _ _ _); cbn; intros Hin;
    first [destruct Hin as [<-|[]]; by auto | destruct Hin].
Qed.

(** C10.  After [apply_listing_globals] both [MODEL_INPUT_VALUE] and
    [MAKE_INPUT_VALUE] hold the model text of the record and the make text
    is held by [TOYOTA_INPUT_VALUE] alone; so the page script is handed the
    model text as [makeInputValue], and whatever it writes for the make
    input (into the input with the make input id, or into the input it
    creates under that id) is the model text. *)
Theorem make_input_receives_model (config : ListingConfig) (g : Globals)
    (attr_name attr_value : string) (doc : Document) :
  apply_listing_globals config g =
    {| TARGET_TEXT := vehicle_type config;
       TARGET_YEAR_TEXT := year config;
       MAKE_INPUT_VALUE := model config;
       TOYOTA_INPUT_VALUE := make config;
       MODEL_INPUT_VALUE := model config;
       PRICE_INPUT_VALUE := price config;
       MILEAGE_INPUT_VALUE := mileage config;
       DESCRIPTION_TEXT := description config;
       LOCATION_TEXT := location config |}
  /\ makeInputId (patch_dom_args (apply_listing_globals config g) attr_name attr_value)
     = MAKE_INPUT_ID
  /\ makeInputValue (patch_dom_args (apply_listing_globals config g) attr_name attr_value)
     = model config
  /\ toyotaInputValue (patch_dom_args (apply_listing_globals config g) attr_name attr_value)
     = make config
  /\ (forall w,
        In w (make_writes (patch_make_input
               (patch_dom_args (apply_listing_globals config g) attr_name attr_value) doc)) ->
        written_id w = MAKE_INPUT_ID /\ written_text w = model config)
  /\ (forall el,
        getElementById doc !! MAKE_INPUT_ID = Some el -> tagName el = "input" ->
        make_writes (patch_make_input
          (patch_dom_args (apply_listing_globals config g) attr_name attr_value) doc)
        = [SetControlValue MAKE_INPUT_ID (model config)]).
Proof.
  split; [reflexivity|]. split; [reflexivity|]. split; [reflexivity|].
  split; [reflexivity|]. split.
  - intros w Hw. by apply patch_make_input_writes in Hw.
  - intros el Hel Htag. unfold patch_make_input. cbn [makeInputId patch_dom_args].
    rewrite Hel, Htag. reflexivity.
Qed.

(** On the Avanza record: the input with the make input id is given
    "Avanza", not "Toyota". *)
Lemma make_input_receives_model_witness :
  make_writes (patch_make_input
    (patch_dom_args (apply_listing_globals avanza_config builtin_globals) "" "Mobil/Truk")
    make_input_document)
  = [SetControlValue "_r_2s_" "Avanza"].
Proof.
  apply (proj2 (proj2 (proj2 (proj2 (proj2
    (make_input_receives_model avanza_config builtin_globals "" "Mobil/Truk"
       make_input_document))))) plain_input); reflexivity.
Defined.

(** ** [main] *)

Lemma transient_warnings history : Forall is_transient (omap transient_warning history).
Proof.
  induction history as [|r h IH]; cbn; [constructor|].
  unfold transient_warning at 1.
  destruct (pr_raised r) as [[]|]; try assumption; constructor; try assumption;
    eexists; reflexivity.
Qed.

Lemma run_single_listing_lines config pg b lines :
  run_single_listing config pg = Ret (b, lines) ->
  exists warnings,
    Forall is_transient warnings
    /\ lines = if b then warnings
               else (warnings ++ [ErrIncompleteUpdate (run_diagnostic config pg)])%list.
Proof.
  unfold run_single_listing, run_diagnostic.
  destruct (run_open pg); cbn; [|discriminate].
  destruct (success _); intros [= <- <-]; eexists; (split; [apply transient_warnings|reflexivity]).
Qed.

Section MainProperties.
Context `{PyBuiltins}.

(** One turn of the loop over the listings. *)
Lemma process_listings_cons env total g idx failed listing rest failed' lines :
  process_listings env total g idx failed (listing :: rest) = Ret (failed', lines) ->
  exists here later failed_mid,
    process_listings env total (globals_after env g listing) (S idx) failed_mid rest
    = Ret (failed', later)
    /\ lines = (here ++ later)%list
    /\ failed_mid = (if is_completed (record_status env g idx listing)
                     then failed else S failed)
    /\ record_lines idx total (record_status env g idx listing) here.
Proof.
  cbn [process_listings]. unfold globals_after, record_status.
  destruct (build_listing_config g listing (main_args env) (file_system env)
              TARGET_URL SELLING_URL) as [config|].
  - destruct (run_single_listing config (listing_page env idx)) as [[b run_lines]|x] eqn:Hrun;
      cbn; [|discriminate].
    destruct (run_single_listing_lines _ _ _ _ Hrun) as (warnings & Hwarn & ->).
    destruct b; cbn.
    + destruct (selling_page env idx) as [u|x]; cbn; [|discriminate].
      destruct (process_listings env total _ (S idx) failed rest)
        as [[f later]|x] eqn:Hrest; cbn; [|discriminate].
      intros [= <- <-].
      exists (InfoListingStart idx total :: warnings
              ++ [OpeningSellingPage (selling_url config)])%list, later, failed.
      split; [exact Hrest|]. split; [cbn; by rewrite <- ?app_assoc|].
      split; [reflexivity|]. cbn. eauto.
    + destruct (process_listings env total _ (S idx) (S failed) rest)
        as [[f later]|x] eqn:Hrest; cbn; [|discriminate].
      intros [= <- <-].
      exists (InfoListingStart idx total :: warnings
              ++ [ErrIncompleteUpdate (run_diagnostic config (listing_page env idx));
                  ErrIncompleteListing idx])%list, later, (S failed).
      split; [exact Hrest|]. split.
      { cbn. by rewrite <- ?app_assoc. }
      split; [reflexivity|]. cbn. eauto.
  - destruct (process_listings env total g (S idx) (S failed) rest)
      as [[f later]|x] eqn:Hrest; cbn; [|discriminate].
    intros [= <- <-]. exists [ErrNoImage idx], later, (S failed).
    split; [exact Hrest|]. repeat split.
Qed.

Lemma record_lines_start idx total st here j t :
  record_lines idx total st here -> In (InfoListingStart j t) here ->
  j = idx /\ (st = Completed \/ exists d, st = Incomplete d).
Proof.
  destruct st as [| |d|x]; cbn.
  - intros -> [Heq|[]]. discriminate Heq.
  - intros (warnings & url & -> & Hwarn) [[= -> _]|Hin]; [auto|].
    apply in_app_or in Hin as [Hin|[Heq|[]]]; [|discriminate Heq].
    rewrite Forall_forall in Hwarn. apply list_elem_of_In, Hwarn in Hin as [e He].
    discriminate He.
  - intros (warnings & -> & Hwarn) [[= -> _]|Hin]; [eauto|].
    apply in_app_or in Hin as [Hin|[Heq|[Heq|[]]]]; [|discriminate Heq|discriminate Heq].
    rewrite Forall_forall in Hwarn. apply list_elem_of_In, Hwarn in Hin as [e He].
    discriminate He.
  - intros [].
Qed.

Lemma record_lines_handled idx total st here :
  record_lines idx total st here ->
  In (ErrNoImage idx) here \/ In (InfoListingStart idx total) here.
Proof.
  destruct st as [| |d|x]; cbn.
  - intros ->. left. by left.
  - intros (warnings & url & -> & _). right. by left.
  - intros (warnings & -> & _). right. by left.
  - intros [].
Qed.

(** The loop over the listings: the count of failures, and the lines
    printed for each listing. *)
Lemma process_listings_spec env total listings : forall g idx failed failed' lines,
  process_listings env total g idx failed listings = Ret (failed', lines) ->
  failed' = (failed + failed_records (record_statuses env g idx listings))%nat
  /\ (forall i d,
        record_statuses env g idx listings !! i = Some (Incomplete d) ->
        exists before after,
          lines = (before ++ ErrIncompleteUpdate d
                   :: ErrIncompleteListing (idx + i) :: after)%list)
  /\ (forall i,
        record_statuses env g idx listings !! i = Some PhotoUnresolved ->
        In (ErrNoImage (idx + i)) lines)
  /\ (forall i, (i < List.length listings)%nat ->
        In (ErrNoImage (idx + i)) lines \/ In (InfoListingStart (idx + i) total) lines)
  /\ (forall j t, In (InfoListingStart j t) lines ->
        exists i, j = (idx + i)%nat
          /\ (record_statuses env g idx listings !! i = Some Completed
              \/ exists d, record_statuses env g idx listings !! i = Some (Incomplete d))).
Proof.
  induction listings as [|listing rest IH]; intros g idx failed failed' lines.
  - cbn. intros [= <- <-]. split; [lia|].
    split; [intros i d Hi; discriminate Hi|].
    split; [intros i Hi; discriminate Hi|].
    split; [intros i Hi; cbn in Hi; lia|]. intros j t [].
  - intros (here & later & failed_mid & Hrest & -> & -> & Hhere)%process_listings_cons.
    destruct (IH _ _ _ _ _ Hrest) as (Hcount & Hdiag & Hphoto & Hall & Hstart).
    cbn [record_statuses failed_records].
    set (st := record_status env g idx listing) in *.
    set (sts := record_statuses env (globals_after env g listing) (S idx) rest) in *.
    split; [destruct (is_completed st); lia|]. split; [|split; [|split]].
    + intros [|i] d Hi; cbn in Hi.
      * injection Hi as Hst. rewrite Hst in Hhere. cbn in Hhere.
        destruct Hhere as (warnings & -> & _).
        exists (InfoListingStart idx total :: warnings), later.
        rewrite Nat.add_0_r. cbn. by rewrite <- app_assoc.
      * destruct (Hdiag i d Hi) as (before & after & ->).
        exists (here ++ before)%list, after.
        rewrite <- app_assoc. by rewrite Nat.add_succ_r.
    + intros [|i] Hi; cbn in Hi.
      * injection Hi as Hst. rewrite Hst in Hhere. cbn in Hhere. subst here.
        rewrite Nat.add_0_r. by left.
      * apply in_or_app. right. rewrite Nat.add_succ_r. by apply Hphoto.
    + intros [|i] Hi; cbn in Hi.
      * rewrite Nat.add_0_r.
        destruct (record_lines_handled _ _ _ _ Hhere); [left|right];
          apply in_or_app; by left.
      * rewrite Nat.add_succ_r.
        destruct (Hall i ltac:(lia)); [left|right]; apply in_or_app; by right.
    + intros j t [Hin|Hin]%in_app_or.
      * destruct (record_lines_start _ _ _ _ _ _ Hhere Hin) as [-> Hst].
        exists 0%nat. split; [lia|]. cbn.
        destruct Hst as [->|[d ->]]; eauto.
      * destruct (Hstart j t Hin) as (i & -> & Hi).
        exists (S i). split; [lia|]. exact Hi.
Qed.

Lemma failed_records_zero sts :
  failed_records sts = 0%nat <-> Forall (fun st => st = Completed) sts.
Proof.
  induction sts as [|st rest IH]; cbn.
  - split; [constructor|reflexivity].
  - rewrite Forall_cons_iff, <- IH.
    destruct st; cbn; split; try lia; try (intros [? _]; discriminate).
    intros ->. by split.
Qed.

(** What [main] returns, in terms of its loop over the listings. *)
Lemma main_returns env code lines :
  main env = Ret (code, lines) ->
  exists failed body head tail,
    process_listings env (List.length (main_listings env)) builtin_globals 1 0
      (main_listings env) = Ret (failed, body)
    /\ lines = (head ++ body ++ [tail])%list
    /\ (forall l, In l head ->
          l = WarnInvalidDataFile \/ l = InfoFallbackSingleRun \/ l = WarnNoCookies)
    /\ ((failed = 0%nat /\ code = 0 /\ tail = AllPosted)
        \/ (failed <> 0%nat /\ code = 1
            /\ tail = ErrCompletedWithFailures failed (List.length (main_listings env)))).
Proof.
  unfold main.
  set (head := (_ ++ _ ++ _)%list).
  assert (forall l, In l head ->
            l = WarnInvalidDataFile \/ l = InfoFallbackSingleRun \/ l = WarnNoCookies)
    as Hhead.
  { intros l. unfold head. rewrite !in_app_iff.
    destruct (load_listings_data (data_file_content env)).2;
      destruct (load_listings_data (data_file_content env)).1;
      destruct (load_raw_cookies (cookies_file_content env)).1; cbn;
      intuition (subst; auto). }
  destruct (match (load_raw_cookies (cookies_file_content env)).1 with
            | [] => Ret []
            | _ => normalize_cookies (load_raw_cookies (cookies_file_content env)).1
            end) as [cookies|x]; cbn; [|discriminate].
  destruct (process_listings env _ builtin_globals 1 0 (main_listings env))
    as [[failed body]|x]; cbn; [|discriminate].
  destruct failed as [|n]; intros [= <- <-].
  - exists 0%nat, body, head, AllPosted. repeat (split; [done|]). left. auto.
  - exists (S n), body, head,
      (ErrCompletedWithFailures (S n) (List.length (main_listings env))).
    repeat (split; [done|]). right. auto.
Qed.

(** C7, amended.  When [main] returns, the exit code is 0 exactly when
    every listing completed and 1 otherwise.  A listing whose run gives
    up gets the line with its seven sub-check values, followed by its
    "incomplete update" line; a listing whose photo cannot be resolved
    gets the "no image found" line instead and is never started; either
    is counted as failed, the listings after it are still handled, and
    the count of failed listings is printed at the end. *)
Theorem main_exit_code (env : MainEnv) (code : Z) (lines : list LogLine) :
  main env = Ret (code, lines) ->
  (code = 0 <->
     Forall (fun st => st = Completed)
       (record_statuses env builtin_globals 1 (main_listings env)))
  /\ (code = 0 \/ code = 1)
  /\ (forall i d,
        record_statuses env builtin_globals 1 (main_listings env) !! i
        = Some (Incomplete d) ->
        exists before after,
          lines = (before ++ ErrIncompleteUpdate d
                   :: ErrIncompleteListing (S i) :: after)%list)
  /\ (forall i,
        record_statuses env builtin_globals 1 (main_listings env) !! i
        = Some PhotoUnresolved ->
        In (ErrNoImage (S i)) lines
        /\ forall t, ~ In (InfoListingStart (S i) t) lines)
  /\ (forall i, (i < List.length (main_listings env))%nat ->
        In (ErrNoImage (S i)) lines
        \/ In (InfoListingStart (S i) (List.length (main_listings env))) lines)
  /\ (code = 1 ->
      In (ErrCompletedWithFailures
            (failed_records (record_statuses env builtin_globals 1 (main_listings env)))
            (List.length (main_listings env))) lines).
Proof.
  intros (failed & body & head & tail & Hloop & -> & Hhead & Hcode)%main_returns.
  destruct (process_listings_spec _ _ _ _ _ _ _ _ Hloop)
    as (Hcount & Hdiag & Hphoto & Hall & Hstart).
  cbn in Hcount.
  set (sts := record_statuses env builtin_globals 1 (main_listings env)) in *.
  assert (forall j t, In (InfoListingStart j t) (head ++ body ++ [tail])%list ->
            In (InfoListingStart j t) body) as Hbody.
  { intros j t [Hin|[Hin|[Heq|[]]]%in_app_or]%in_app_or.
    - destruct (Hhead _ Hin) as [?|[?|?]]; discriminate.
    - exact Hin.
    - destruct Hcode as [(_ & _ & ->)|(_ & _ & ->)]; discriminate. }
  split; [|split; [|split; [|split; [|split]]]].
  - rewrite <- failed_records_zero, <- Hcount.
    destruct Hcode as [(-> & -> & _)|(? & -> & _)]; split; (done || lia).
  - destruct Hcode as [(_ & -> & _)|(_ & -> & _)]; auto.
  - intros i d Hi. destruct (Hdiag i d Hi) as (before & after & ->).
    exists (head ++ before)%list, (after ++ [tail])%list.
    by rewrite <- !app_assoc.
  - intros i Hi. split.
    + apply in_or_app. right. apply in_or_app. left. by apply (Hphoto i).
    + intros t Hin. apply Hbody in Hin.
      destruct (Hstart _ _ Hin) as (i' & Heq & Hi').
      assert (i' = i) as -> by lia. rewrite Hi in Hi'.
      destruct Hi' as [?|[d ?]]; discriminate.
  - intros i Hi.
    destruct (Hall i Hi); [left|right]; apply in_or_app; right; apply in_or_app; by left.
  - intros ->. destruct Hcode as [(_ & ? & _)|(_ & _ & ->)]; [discriminate|].
    apply in_or_app. right. apply in_or_app. right. left. by rewrite Hcount.
Qed.

End MainProperties.

(** The statement on a data file with two listings, of which the first
    never gets through. *)
Lemma main_exit_code_witness :
  ~ Forall (fun st => st = Completed)
      (@record_statuses sample_builtins two_listings_env builtin_globals 1
         (main_listings two_listings_env))
  /\ In (ErrCompletedWithFailures 1 2)
       (match @main sample_builtins two_listings_env with
        | Ret (_, lines) => lines
        | Raise _ => []
        end).
Proof.
  destruct (@main sample_builtins two_listings_env) as [[code lines]|x] eqn:Hmain;
    [|vm_compute in Hmain; discriminate Hmain].
  pose proof (@main_exit_code sample_builtins two_listings_env code lines Hmain)
    as (Hzero & _ & _ & _ & _ & Hcount).
  assert (code = 1) as -> by (vm_compute in Hmain; congruence).
  split; [|exact (Hcount eq_refl)].
  intros Hall. apply Hzero in Hall. discriminate Hall.
Defined.

(** C7 as worded fails for a listing without photo: the listing is counted
    as failed and the exit code is 1, and no line with the seven sub-check
    values is printed for it. *)
Lemma photoless_listing_has_no_subcheck_line :
  ~ @exit_as_specified sample_builtins photoless_env.
Proof.
  intros Hspec.
  destruct (Hspec 1 [InfoFallbackSingleRun; WarnNoCookies; ErrNoImage 1;
                     ErrCompletedWithFailures 1 1]) as [_ Hdiag].
  { vm_compute. reflexivity. }
  destruct (Hdiag 0%nat PhotoUnresolved) as [d Hin].
  - vm_compute. reflexivity.
  - discriminate.
  - cbn in Hin. repeat destruct Hin as [Hin|Hin]; try discriminate Hin. destruct Hin.
Qed.

(** ** The default record *)

Lemma dict_items_none items :
  Forall (fun item => forall d, item <> JDict d) items -> dict_items items = [].
Proof.
  induction 1 as [|item rest Hitem _ IH]; [reflexivity|].
  unfold dict_items in *. cbn. rewrite IH.
  destruct item; try reflexivity. by destruct (Hitem entries).
Qed.

Section DefaultRecord.
Context `{PyBuiltins}.


End DefaultRecord.


(** With a data file that holds no listing, the one default record is
    run and the process ends with code 0. *)
Example default_record_run :
  @main sample_builtins no_listing_env
  = Ret (0, [InfoFallbackSingleRun; WarnNoCookies; InfoListingStart 1 1;
             OpeningSellingPage SELLING_URL; AllPosted]).
Proof. vm_compute. reflexivity. Qed.

(* ===================================================================== *)
(** * Part II, continued: properties of the helpers                        *)
(* ===================================================================== *)

(** ** Stripping *)

Lemma rstrip_idempotent s : PyStr.rstrip (PyStr.rstrip s) = PyStr.rstrip s.
Proof.
  induction s as [|c r IH]; [reflexivity|]. cbn.
  destruct (PyStr.rstrip r) as [|d t] eqn:Hr.
  - destruct (PyStr.isspace c) eqn:Hc; [reflexivity|]. cbn. by rewrite Hc.
  - cbn [PyStr.rstrip]. cbn [PyStr.rstrip] in IH. rewrite IH. reflexivity.
Qed.

Lemma rstrip_keeps_head c r :
  PyStr.isspace c = false -> exists r', PyStr.rstrip (String c r) = String c r'.
Proof.
  intros Hc. cbn. destruct (PyStr.rstrip r); [rewrite Hc|]; eauto.
Qed.

Lemma lstrip_head s :
  PyStr.lstrip s = EmptyString
  \/ exists c r, PyStr.lstrip s = String c r /\ PyStr.isspace c = false.
Proof.
  induction s as [|c r IH]; [by left|]. cbn.
  destruct (PyStr.isspace c) eqn:Hc; [exact IH|]. right. eauto.
Qed.

Lemma strip_idempotent s : PyStr.strip (PyStr.strip s) = PyStr.strip s.
Proof.
  unfold PyStr.strip.
  destruct (lstrip_head s) as [->|(c & r & -> & Hc)]; [reflexivity|].
  destruct (rstrip_keeps_head c r Hc) as [r' Hr]. rewrite Hr.
  cbn [PyStr.lstrip]. rewrite Hc, <- Hr. apply rstrip_idempotent.
Qed.

(** ** [_pick_listing_value] *)

Section PickProperties.
Context `{PyBuiltins}.

Lemma pick_listing_value_step listing key rest fallback :
  _pick_listing_value listing (key :: rest) fallback =
  match usable_value listing key with
  | Some text => text
  | None => _pick_listing_value listing rest fallback
  end.
Proof.
  cbn. unfold usable_value.
  destruct (listing !! key) as [[]|]; try reflexivity;
    by destruct (String.eqb _ "").
Qed.

Lemma usable_value_stripped listing key text :
  usable_value listing key = Some text -> text <> "" /\ PyStr.strip text = text.
Proof.
  unfold usable_value.
  destruct (listing !! key) as [value|]; [|discriminate].
  assert (forall v, (if String.eqb (PyStr.strip (py_str v)) ""
                     then None else Some (PyStr.strip (py_str v))) = Some text ->
                    text <> "" /\ PyStr.strip text = text) as Hany.
  { intros v. destruct (String.eqb_spec (PyStr.strip (py_str v)) "") as [|Hne];
      [discriminate|]. intros [= <-]. split; [exact Hne | apply strip_idempotent]. }
  destruct value; try discriminate; apply Hany.
Qed.

(** X1.  [_pick_listing_value] returns the text of the first key, in the
    order given, under which the listing holds a value that is not null and
    not blank once stripped, and the fallback when there is no such key;
    what it takes from the listing is never empty and is stripped. *)
Theorem pick_listing_value_first_usable (listing : gmap string json)
    (keys : list string) (fallback : string) :
  _pick_listing_value listing keys fallback
  = default fallback (head (omap (usable_value listing) keys))
  /\ (_pick_listing_value listing keys fallback = fallback
      \/ (_pick_listing_value listing keys fallback <> ""
          /\ PyStr.strip (_pick_listing_value listing keys fallback)
             = _pick_listing_value listing keys fallback)).
Proof.
  induction keys as [|key rest [IHv IHs]]; [split; [reflexivity|by left]|].
  rewrite pick_listing_value_step. cbn [omap list_omap].
  change (omap (usable_value listing) (key :: rest)) with
    (match usable_value listing key with
     | Some t => t :: omap (usable_value listing) rest
     | None => omap (usable_value listing) rest
     end).
  destruct (usable_value listing key) as [text|] eqn:Hkey.
  - split; [reflexivity|]. right. by apply (usable_value_stripped listing key).
  - split; assumption.
Qed.

Lemma pick_listing_value_unset listing keys fallback :
  Forall (fun key => usable_value listing key = None) keys ->
  _pick_listing_value listing keys fallback = fallback.
Proof.
  induction 1 as [|key rest Hkey _ IH]; [reflexivity|].
  by rewrite pick_listing_value_step, Hkey.
Qed.

(** X3.  The fall-back values of [build_listing_config] are the module
    names as the previous listing left them: a field for which the listing
    offers no usable value under any of its keys is built with the value of
    the record handled before, not with the built-in default. *)
Theorem build_listing_config_inherits (previous : ListingConfig) (g : Globals)
    (listing : gmap string json) (args : Args) (fs : FileSystem)
    (built : ListingConfig) :
  build_listing_config (apply_listing_globals previous g) listing args fs
    TARGET_URL SELLING_URL = Some built ->
  inherits listing ["vehicle_type"; "jenis_kendaraan"] (vehicle_type previous) (vehicle_type built)
  /\ inherits listing ["year"; "tahun"] (year previous) (year built)
  /\ inherits listing ["make"; "merek"; "merk"; "brand"] (make previous) (make built)
  /\ inherits listing ["model"] (model previous) (model built)
  /\ inherits listing ["price"; "harga"] (price previous) (price built)
  /\ inherits listing ["mileage"; "jarak_tempuh"; "jarak"] (mileage previous) (mileage built)
  /\ inherits listing ["description"; "keterangan"] (description previous) (description built)
  /\ inherits listing ["location"; "lokasi"] (location previous) (location built).
Proof.
  unfold build_listing_config.
  destruct (resolve_photo_path fs _) as [photo|]; [|discriminate].
  intros Hbuilt. injection Hbuilt as <-. unfold inherits.
  cbn [vehicle_type year make model price mileage description location].
  repeat split; intros Hunset; exact (pick_listing_value_unset _ _ _ Hunset).
Qed.

End PickProperties.

(** The statement on an empty listing that follows the Innova record. *)
Lemma build_listing_config_inherits_witness :
  model after_innova_config = "Innova" /\ location after_innova_config = "Depok".
Proof.
  assert (@build_listing_config sample_builtins
            (apply_listing_globals innova_config builtin_globals) ∅ default_args
            one_photo_directory TARGET_URL SELLING_URL = Some after_innova_config) as Hbuilt
    by (vm_compute; reflexivity).
  destruct (@build_listing_config_inherits sample_builtins innova_config builtin_globals
              ∅ default_args one_photo_directory after_innova_config Hbuilt)
    as (_ & _ & _ & Hmodel & _ & _ & _ & Hlocation).
  split; [apply Hmodel | apply Hlocation]; repeat constructor.
Defined.

(** ** [load_listings_data] and [load_raw_cookies] *)

Lemma dict_items_elem items d : In d (dict_items items) <-> In (JDict d) items.
Proof.
  unfold dict_items. induction items as [|item rest IH]; [reflexivity|].
  cbn [omap list_omap].
  change (omap (λ item0, match item0 with JDict d0 => Some d0 | _ => None end) rest)
    with (dict_items rest) in *.
  destruct item; cbn; rewrite ?IH; try (split; [tauto | intros [Heq|?]; [discriminate|tauto]]).
  split; intros [Heq|?]; try tauto; left; congruence.
Qed.

(** The dict entries are kept in the order of the file. *)
Lemma dict_items_app l1 l2 : dict_items (l1 ++ l2) = (dict_items l1 ++ dict_items l2)%list.
Proof. unfold dict_items. apply omap_app. Qed.

(** X2.  Every listing [load_listings_data] returns is a dict entry of
    the file: an element of the top-level list, of the list under
    "listings", of the list under "listing_data", or the dict under
    "listing_data"; a list under "listings" shuts the "listing_data" entry
    out, also when that list holds no dict.  An absent or unreadable file
    gives no listing. *)
Theorem load_listings_data_origin (f : JsonFile) :
  (forall d, In d (load_listings_data f).1 -> listing_origin f d)
  /\ (forall entries items,
        f = FileJson (JDict entries) -> entries !! "listings" = Some (JList items) ->
        (load_listings_data f).1 = dict_items items)
  /\ (f = FileAbsent \/ f = FileInvalid -> (load_listings_data f).1 = []).
Proof.
  split; [|split].
  - intros d. destruct f as [| |payload]; cbn; try tauto.
    assert (forall items, In d (dict_items items) -> In (JDict d) items) as Hitems
      by (intros items; apply dict_items_elem).
    destruct payload as [| | | | |items|entries]; cbn; try tauto.
    + intros Hin. exists (JList items). split; [reflexivity|]. left. eauto.
    + intros Hin. exists (JDict entries). split; [reflexivity|]. right.
      destruct (entries !! "listings") as [[| | | | |items|]|] eqn:Hl;
        try (destruct (entries !! "listing_data") as [[| | | | |items'|d']|] eqn:Hd;
             cbn in Hin; try tauto;
             [ right; left; exists entries, items'; auto
             | right; right; destruct Hin as [<-|[]]; exists entries; auto ]).
      left. exists entries, items. auto.
  - intros entries items -> Hl. cbn. by rewrite Hl.
  - intros [->| ->]; reflexivity.
Qed.

(** ** [discover_project_photo] and [resolve_photo_path] *)

Lemma first_match_head fs patterns :
  first_match fs patterns = head (omap (fun pattern => head (fs_glob fs pattern)) patterns).
Proof.
  induction patterns as [|pattern rest IH]; [reflexivity|].
  cbn. destruct (fs_glob fs pattern) as [|m ms]; cbn; [exact IH|reflexivity].
Qed.

Lemma first_match_none fs patterns :
  first_match fs patterns = None <-> Forall (fun pattern => fs_glob fs pattern = []) patterns.
Proof.
  induction patterns as [|pattern rest IH]; cbn.
  - split; [constructor|reflexivity].
  - rewrite Forall_cons_iff, <- IH.
    destruct (fs_glob fs pattern); split; try tauto; try discriminate.
    intros [? _]. discriminate.
Qed.

(** X4.  [resolve_photo_path] finds no photo exactly when the photo
    argument is blank or names no existing file and none of the five
    patterns matches a file of the project directory.  A photo argument
    that names an existing file wins; otherwise the photo is the first
    match, in sorted order, of the first pattern that has one, the patterns
    taken in the order jpg, jpeg, png, webp, heic. *)
Theorem resolve_photo_path_cases (fs : FileSystem) (photo_path_arg : string) :
  (resolve_photo_path fs photo_path_arg = None <->
     (PyStr.strip photo_path_arg = "" \/ fs_existing fs photo_path_arg = None)
     /\ Forall (fun pattern => fs_glob fs pattern = [])
          ["*.jpg"; "*.jpeg"; "*.png"; "*.webp"; "*.heic"])
  /\ (forall candidate,
        PyStr.strip photo_path_arg <> "" ->
        fs_existing fs photo_path_arg = Some candidate ->
        resolve_photo_path fs photo_path_arg = Some candidate)
  /\ (PyStr.strip photo_path_arg = "" \/ fs_existing fs photo_path_arg = None ->
      resolve_photo_path fs photo_path_arg
      = head (omap (fun pattern => head (fs_glob fs pattern))
                ["*.jpg"; "*.jpeg"; "*.png"; "*.webp"; "*.heic"])).
Proof.
  unfold resolve_photo_path, discover_project_photo.
  change PHOTO_GLOB_PATTERNS with ["*.jpg"; "*.jpeg"; "*.png"; "*.webp"; "*.heic"].
  rewrite <- first_match_head, <- first_match_none.
  destruct (String.eqb_spec (PyStr.strip photo_path_arg) "") as [Hblank|Hgiven]; cbn.
  - split; [tauto|]. split; [congruence|reflexivity].
  - destruct (fs_existing fs photo_path_arg) as [candidate|].
    + split; [split; [discriminate | intros [[?|?] _]; congruence]|].
      split; [congruence | intros [?|?]; congruence].
    + split; [tauto|]. split; [discriminate|reflexivity].
Qed.

(** ** [enforce_labeled_text_input_commit] *)

Lemma keep_digits_app a b : keep_digits (a ++ b) = keep_digits a ++ keep_digits b.
Proof.
  induction a as [|c r IH]; [reflexivity|].
  change (String c r ++ b) with (String c (r ++ b)). cbn [keep_digits].
  rewrite IH. by destruct (PyStr.in_range 48 57 c).
Qed.






Lemma text_scan_true target_value digits_only active : forall required,
  text_scan target_value digits_only required active = true <->
  (required = false /\ Forall (fun c => tc_input c = None) active)
  \/ Exists (fun c => exists answer, tc_input c = Some answer
               /\ text_attempt target_value digits_only answer = true) active.
Proof.
  induction active as [|c rest IH]; intros required; cbn.
  - rewrite negb_true_iff, Exists_nil. split; [intros ->; left; by split | intros [[? _]|[]]; done].
  - rewrite Forall_cons_iff, Exists_cons.
    destruct (tc_input c) as [answer|] eqn:Hc.
    + destruct (text_attempt target_value digits_only answer) eqn:Ha.
      * split; [intros _; right; left; eauto | reflexivity].
      * rewrite IH. split.
        -- intros [[? _]|?]; [discriminate | right; by right].
        -- intros [[_ [? _]]|[(a & [= <-] & ?)|?]]; [discriminate|congruence|by right].
    + rewrite IH. split.
      * intros [[? ?]|?]; [left; by repeat split | right; by right].
      * intros [[? [_ ?]]|[(a & ? & _)|?]]; [by left|discriminate|by right].
Qed.

(** X6.  [enforce_labeled_text_input_commit] goes through the visible
    labelled containers when one is visible and through all of them
    otherwise, and reports the commit as verified exactly when one of them
    holds an input whose read-back passes the comparison, or none of them
    holds a text input at all.  So with the digits-only comparison a target
    without any digit can only pass on a form without such an input. *)
Theorem enforce_labeled_text_input_commit_true (containers : list TextContainer)
    (target_value : string) (digits_only : bool) :
  (enforce_labeled_text_input_commit (Ret containers) target_value digits_only = Ret true <->
     Forall (fun c => tc_input c = None) (active_text_containers containers)
     \/ Exists (fun c => exists answer, tc_input c = Some answer
                  /\ text_attempt target_value digits_only answer = true)
          (active_text_containers containers))
  /\ (keep_digits target_value = "" ->
      enforce_labeled_text_input_commit (Ret containers) target_value true = Ret true ->
      Forall (fun c => tc_input c = None) (active_text_containers containers)).
Proof.
  assert (forall d,
    enforce_labeled_text_input_commit (Ret containers) target_value d = Ret true <->
      Forall (fun c => tc_input c = None) (active_text_containers containers)
      \/ Exists (fun c => exists answer, tc_input c = Some answer
                   /\ text_attempt target_value d answer = true)
           (active_text_containers containers)) as Hiff.
  { intros d. unfold enforce_labeled_text_input_commit, active_text_containers. cbn.
    destruct containers as [|c cs]; [cbn; split; [by left|reflexivity]|].
    set (all := c :: cs).
    assert (forall b, Ret b = Ret true <-> b = true) as Hret
      by (intros b; split; [by intros [= ->] | by intros ->]).
    destruct (List.filter tc_visible all); rewrite Hret, text_scan_true; tauto. }
  split; [apply Hiff|].
  intros Hnone [Hall|Hex]%Hiff; [exact Hall|].
  apply Exists_exists in Hex as (c & _ & answer & _ & Hanswer).
  destruct answer as [v|x]; [|discriminate Hanswer].
  unfold text_attempt in Hanswer. rewrite Hnone in Hanswer. discriminate Hanswer.
Qed.

(** The statement on a mileage input that shows " 120.000 km ". *)
Lemma enforce_labeled_text_input_commit_true_witness :
  enforce_labeled_text_input_commit (Ret formatted_mileage_page) "120000" true = Ret true
  /\ enforce_labeled_text_input_commit (Ret formatted_mileage_page) "sedikit" true
     <> Ret true.
Proof.
  split.
  - apply (enforce_labeled_text_input_commit_true formatted_mileage_page "120000" true).
    right. apply Exists_cons. right. apply Exists_cons. left.
    exists (Ret " 120.000 km "). split; reflexivity.
  - intros Htrue.
    pose proof (proj2 (enforce_labeled_text_input_commit_true formatted_mileage_page
                         "sedikit" true) eq_refl Htrue) as Hall.
    apply Forall_cons_iff in Hall as [_ Hall].
    apply Forall_cons_iff in Hall as [Hnone _]. discriminate Hnone.
Defined.

(** ** [enforce_model_input_commit] *)



(** ** [enforce_select_fields] *)

Lemma enforce_select_fields_from_mapM combo_for fields : forall ok,
  enforce_select_fields_from ok combo_for fields
  = (results ← mapM (field_result combo_for) fields; Ret (ok && forallb id results)).
Proof.
  unfold field_result.
  induction fields as [|[label_text option_text] rest IH]; intros ok; cbn.
  - by rewrite andb_true_r.
  - destruct (select_combobox_option (combo_for label_text) option_text) as [b|x]; cbn;
      [|reflexivity].
    rewrite IH. destruct (mapM _ rest) as [bs|x]; cbn; [|reflexivity].
    by rewrite andb_assoc.
Qed.

(** X8.  [enforce_select_fields] handles every field, in order, also after
    one of them has failed, and answers the conjunction of the results; an
    exception of any field, the later ones included, leaves the function
    whatever the earlier fields answered. *)
Theorem enforce_select_fields_all (combo_for : string -> ComboPage)
    (select_fields : list (string * string)) :
  enforce_select_fields combo_for select_fields
  = (results ← mapM (field_result combo_for) select_fields; Ret (forallb id results))
  /\ (forall earlier field later x,
        select_fields = (earlier ++ field :: later)%list ->
        Forall (fun f => exists b, field_result combo_for f = Ret b) earlier ->
        field_result combo_for field = Raise x ->
        enforce_select_fields combo_for select_fields = Raise x).
Proof.
  split; [apply enforce_select_fields_from_mapM|].
  intros earlier field later x -> Hearlier Hfield.
  unfold enforce_select_fields. rewrite enforce_select_fields_from_mapM.
  induction Hearlier as [|f rest [b Hb] _ IH]; cbn.
  - rewrite Hfield. reflexivity.
  - rewrite Hb. cbn.
    destruct (mapM (field_result combo_for) (rest ++ field :: later)) as [bs|y];
      cbn in *; [discriminate IH | exact IH].
Qed.

(** ** [click_tinggalkan_halaman]: a click that lands *)

Lemma poll_leave_app before turns :
  poll_leave before = Ret false -> poll_leave (before ++ turns) = poll_leave turns.
Proof.
  induction before as [|p rest IH]; [reflexivity|]. cbn [poll_leave app].
  destruct (try_selectors (lp_locate p) leave_selectors) as [[]|x]; cbn; try discriminate.
  destruct (lp_js_clicked p) as [[]|y]; cbn; try discriminate.
  destruct (lp_wait p) as [u|z]; cbn; [exact IH|discriminate].
Qed.

(** X9.  Once a click lands in a turn of the polling, through a selector or
    through the script-level search, [click_tinggalkan_halaman] reports
    success at once: the turns after it are not run and the page is not
    asked whether a confirmation is still visible. *)
Theorem leave_page_click_lands (before later : list LeavePoll) (p : LeavePoll)
    (visible : Outcome bool) :
  Forall quiet_turn before ->
  clicking_turn p ->
  click_tinggalkan_halaman
    {| polls := (before ++ p :: later)%list; confirmation_visible := visible |} = true.
Proof.
  intros Hquiet%poll_leave_false Hclick.
  unfold click_tinggalkan_halaman. cbn [polls].
  rewrite (poll_leave_app _ _ Hquiet). cbn [poll_leave].
  destruct Hclick as [->|[-> ->]]; reflexivity.
Qed.

(** The statement on a prompt that takes the click in the second turn,
    with a turn after it that would raise and a prompt still visible. *)
Lemma leave_page_click_lands_witness :
  click_tinggalkan_halaman
    {| polls := [empty_turn; clicking_poll; navigating_turn];
       confirmation_visible := Ret true |} = true.
Proof.
  apply (leave_page_click_lands [empty_turn] [navigating_turn] clicking_poll (Ret true)).
  - repeat constructor; cbn; eauto.
  - left. reflexivity.
Defined.

(** ** [click_save_draft] and [upload_photo] *)

(** X10.  [click_save_draft] uses the first of its three locators that
    finds something, and succeeds exactly when the click on that one
    returns: a locator further down is tried only when the ones before it
    find nothing, never after a click that failed. *)
Theorem click_save_draft_first_found (pg : SaveDraftPage) :
  click_save_draft pg = true <->
    (exists n, role_button_count pg = Ret (S n) /\ returns (role_button_click pg) = true)
    \/ (role_button_count pg = Ret 0%nat
        /\ exists n, container_count pg = Ret (S n)
                     /\ returns (container_click pg) = true)
    \/ (role_button_count pg = Ret 0%nat /\ container_count pg = Ret 0%nat
        /\ exists n m, text_node_count pg = Ret (S n) /\ clickable_count pg = Ret (S m)
                       /\ returns (clickable_click pg) = true).
Proof.
  unfold click_save_draft, save_draft_steps.
  destruct (role_button_count pg) as [[|n1]|x1]; cbn.
  - destruct (container_count pg) as [[|n2]|x2]; cbn.
    + destruct (text_node_count pg) as [[|n3]|x3]; cbn.
      * split; [discriminate|]. intros [(? & ? & _)|[(_ & ? & ? & _)|(_ & _ & ? & ? & ? & _)]];
          discriminate.
      * destruct (clickable_count pg) as [[|n4]|x4]; cbn.
        -- split; [discriminate|].
           intros [(? & ? & _)|[(_ & ? & ? & _)|(_ & _ & ? & ? & _ & ? & _)]]; discriminate.
        -- destruct (clickable_click pg) as [u|x5]; cbn.
           ++ split; [intros _|reflexivity]. right. right. eauto 8.
           ++ split; [discriminate|].
              intros [(? & ? & _)|[(_ & ? & ? & _)|(_ & _ & ? & ? & _ & _ & ?)]]; discriminate.
        -- split; [discriminate|].
           intros [(? & ? & _)|[(_ & ? & ? & _)|(_ & _ & ? & ? & _ & ? & _)]]; discriminate.
      * split; [discriminate|].
        intros [(? & ? & _)|[(_ & ? & ? & _)|(_ & _ & ? & ? & ? & _)]]; discriminate.
    + destruct (container_click pg) as [u|x3]; cbn.
      * split; [intros _|reflexivity]. right. left. eauto.
      * split; [discriminate|].
        intros [(? & ? & _)|[(_ & ? & _ & ?)|(_ & ? & _)]]; discriminate.
    + split; [discriminate|].
      intros [(? & ? & _)|[(_ & ? & ? & _)|(_ & ? & _)]]; discriminate.
  - destruct (role_button_click pg) as [u|x2]; cbn.
    + split; [intros _|reflexivity]. left. eauto.
    + split; [discriminate|].
      intros [(? & _ & ?)|[(? & _)|(? & _)]]; discriminate.
  - split; [discriminate|].
    intros [(? & ? & _)|[(? & _)|(? & _)]]; discriminate.
Qed.

(** The statement on a page whose role button is found and does not take
    the click: the step fails and the other locators are left alone. *)
Example click_save_draft_no_second_try : click_save_draft stubborn_save_page = false.
Proof. reflexivity. Qed.

(** X11.  [upload_photo] reports success only when the control that
    removes the photo has appeared after the file was handed over, through
    the file input when the page has one and through the file chooser of
    the add-photo button otherwise; without input and button nothing is
    tried. *)
Theorem upload_photo_confirmed (pg : UploadPage) :
  upload_photo pg = true <->
    returns (remove_button_wait pg) = true
    /\ ((exists n, file_input_count pg = Ret (S n) /\ returns (set_input_files pg) = true)
        \/ (file_input_count pg = Ret 0%nat
            /\ exists m, add_button_count pg = Ret (S m)
                         /\ returns (choose_file pg) = true)).
Proof.
  unfold upload_photo, upload_steps.
  destruct (file_input_count pg) as [[|n]|x]; cbn.
  - destruct (add_button_count pg) as [[|m]|y]; cbn.
    + split; [discriminate|]. intros (_ & [(? & ? & _)|(_ & ? & ? & _)]); discriminate.
    + destruct (choose_file pg) as [u|z]; cbn.
      * destruct (remove_button_wait pg) as [v|w]; cbn.
        -- split; [intros _|reflexivity]. split; [reflexivity|]. right. eauto.
        -- split; [discriminate|]. intros (? & _). discriminate.
      * split; [discriminate|].
        intros (_ & [(? & ? & _)|(_ & ? & _ & ?)]); discriminate.
    + split; [discriminate|]. intros (_ & [(? & ? & _)|(_ & ? & ? & _)]); discriminate.
  - destruct (set_input_files pg) as [u|z]; cbn.
    + destruct (remove_button_wait pg) as [v|w]; cbn.
      * split; [intros _|reflexivity]. split; [reflexivity|]. left. eauto.
      * split; [discriminate|]. intros (? & _). discriminate.
    + split; [discriminate|].
      intros (_ & [(? & _ & ?)|(? & _)]); discriminate.
  - split; [discriminate|]. intros (_ & [(? & ? & _)|(? & _)]); discriminate.
Qed.

(** ** [get_combobox_display_value] *)







(** ** The loop: what happens once, and in which order *)

Lemma run_pass_photo s e :
  (In CallUploadPhoto (pr_calls (run_pass s e)) -> photo_success s = false)
  /\ (photo_success s = true -> photo_success (pr_after (run_pass s e)) = true).
Proof. destruct e, s. body_crush. Qed.

Lemma run_pass_draft_kept s e :
  draft_clicked s = true ->
  draft_clicked (pr_after (run_pass s e)) = true
  /\ ~ In CallSaveDraft (pr_calls (run_pass s e)).
Proof. destruct e, s. body_crush. Qed.

Lemma run_pass_leave s e :
  (In CallLeavePage (pr_calls (run_pass s e)) ->
   leave_clicked s = false /\ draft_clicked (pr_after (run_pass s e)) = true)
  /\ (leave_clicked s = true ->
      leave_clicked (pr_after (run_pass s e)) = true
      /\ ~ In CallLeavePage (pr_calls (run_pass s e))).
Proof. destruct e, s. body_crush. Qed.

Lemma run_pass_attempts s e : attempts (pr_after (run_pass s e)) = S (attempts s).
Proof. destruct e, s. body_crush. Qed.

(** What follows a record in the history is the history of the passes
    that are left, started from the variables the record ends with. *)
Lemma reconcile_suffix passes : forall s pre r post,
  reconcile s passes = (pre ++ r :: post)%list ->
  post = [] \/ exists rest, post = reconcile (pr_after r) rest.
Proof.
  induction passes as [|e rest IH]; intros s pre r post; cbn [reconcile].
  - destruct pre; discriminate.
  - destruct pre as [|r1 pre]; cbn; intros [= Hr Htail].
    + subst r. destruct (breaks (run_pass s e)); [by left | right; eauto].
    + destruct (breaks (run_pass s e)); [destruct pre; discriminate|].
      by apply (IH _ _ _ _ Htail).
Qed.

Lemma reconcile_forall (P : LoopState -> Prop) (Q : PassRecord -> Prop) :
  (forall s e, P s -> Q (run_pass s e) /\ P (pr_after (run_pass s e))) ->
  forall passes s, P s -> Forall Q (reconcile s passes).
Proof.
  intros Hstep. induction passes as [|e rest IH]; intros s Hs; cbn [reconcile].
  - constructor.
  - destruct (Hstep s e Hs) as [Hq Hp]. constructor; [exact Hq|].
    destruct (breaks (run_pass s e)); [constructor | by apply IH].
Qed.

(** X13.  The photo is attached once: after a pass that ends with the
    photo attached, no later pass of the run calls [upload_photo] again,
    and the photo stays attached in all of them. *)
Theorem photo_uploaded_once (passes : list PassEnv) (s : LoopState)
    (pre post : list PassRecord) (r : PassRecord) :
  reconcile s passes = (pre ++ r :: post)%list ->
  photo_success (pr_after r) = true ->
  Forall (fun r' => ~ In CallUploadPhoto (pr_calls r')
                    /\ photo_success (pr_after r') = true) post.
Proof.
  intros [->|[rest ->]]%reconcile_suffix Hphoto; [constructor|].
  apply (reconcile_forall (fun s => photo_success s = true)); [|exact Hphoto].
  intros s' e Hs'. destruct (run_pass_photo s' e) as [Hcall Hkeep].
  split; [split|]; [|by apply Hkeep|by apply Hkeep].
  intros Hin. rewrite (Hcall Hin) in Hs'. discriminate.
Qed.

(** X14.  The two side effects are made in order and not repeated: after a
    pass that ends with the draft saved no later pass clicks save again,
    the leave-page step is only tried in a pass that ends with the draft
    saved and starts with the confirmation open, and after a pass that ends
    with the confirmation resolved no later pass tries it again. *)
Theorem side_effects_once (passes : list PassEnv) (s : LoopState)
    (pre post : list PassRecord) (r : PassRecord) :
  reconcile s passes = (pre ++ r :: post)%list ->
  (draft_clicked (pr_after r) = true ->
   Forall (fun r' => ~ In CallSaveDraft (pr_calls r')
                     /\ draft_clicked (pr_after r') = true) post)
  /\ (leave_clicked (pr_after r) = true ->
      Forall (fun r' => ~ In CallLeavePage (pr_calls r')
                        /\ leave_clicked (pr_after r') = true) post)
  /\ Forall (fun r' => In CallLeavePage (pr_calls r') ->
                       leave_clicked (pr_before r') = false
                       /\ draft_clicked (pr_after r') = true) (pre ++ r :: post).
Proof.
  intros Hhist. split; [|split].
  - destruct (reconcile_suffix _ _ _ _ _ Hhist) as [->|[rest ->]]; [constructor|].
    intros Hdraft.
    apply (reconcile_forall (fun s => draft_clicked s = true)); [|exact Hdraft].
    intros s' e Hs'. destruct (run_pass_draft_kept s' e Hs') as [Hkeep Hcall]. tauto.
  - destruct (reconcile_suffix _ _ _ _ _ Hhist) as [->|[rest ->]]; [constructor|].
    intros Hleave.
    apply (reconcile_forall (fun s => leave_clicked s = true)); [|exact Hleave].
    intros s' e Hs'. destruct (proj2 (run_pass_leave s' e) Hs') as [Hkeep Hcall]. tauto.
  - rewrite <- Hhist.
    apply (reconcile_forall (fun _ => True)); [|exact I].
    intros s' e _. split; [|exact I]. rewrite run_pass_before.
    apply (run_pass_leave s' e).
Qed.

(** X16.  [attempts] counts the passes that were started, the ones that
    raised included: when the loop is left it is the number of passes
    run. *)
Theorem attempts_count_passes (passes : list PassEnv) (s : LoopState) :
  attempts (final_state s (reconcile s passes))
  = (attempts s + List.length (reconcile s passes))%nat.
Proof.
  revert s. induction passes as [|e rest IH]; intros s.
  - cbn. lia.
  - rewrite final_state_reconcile. cbn [reconcile List.length].
    destruct (breaks (run_pass s e)).
    + cbn. rewrite run_pass_attempts. lia.
    + rewrite IH, run_pass_attempts. lia.
Qed.

(** The statement on [late_leave_run]: the photo goes up in the first
    pass and the three passes after it leave it alone. *)
Lemma photo_uploaded_once_witness :
  Forall (fun r' => ~ In CallUploadPhoto (pr_calls r')
                    /\ photo_success (pr_after r') = true)
    (reconcile (pr_after (run_pass initial_state steady_pass))
       [steady_pass; rerender_pass; leaving_pass]).
Proof.
  apply (photo_uploaded_once late_leave_run initial_state []
           (reconcile (pr_after (run_pass initial_state steady_pass))
              [steady_pass; rerender_pass; leaving_pass])
           (run_pass initial_state steady_pass)).
  - vm_compute. reflexivity.
  - vm_compute. reflexivity.
Defined.

(** The statement on [late_leave_run], after its second pass, which saves
    the draft: the two passes after it do not click save again. *)
Lemma side_effects_once_witness :
  Forall (fun r' => ~ In CallSaveDraft (pr_calls r')
                    /\ draft_clicked (pr_after r') = true)
    (reconcile (pr_after (run_pass (pr_after (run_pass initial_state steady_pass))
                            steady_pass))
       [rerender_pass; leaving_pass]).
Proof.
  apply (side_effects_once late_leave_run initial_state
           [run_pass initial_state steady_pass]
           (reconcile (pr_after (run_pass (pr_after (run_pass initial_state steady_pass))
                                   steady_pass)) [rerender_pass; leaving_pass])
           (run_pass (pr_after (run_pass initial_state steady_pass)) steady_pass)).
  - vm_compute. reflexivity.
  - vm_compute. reflexivity.
Defined.

(** ** The loop: how soon it can succeed *)

Lemma reconcile_counter_bound passes : forall s pre r post,
  reconcile s passes = (pre ++ r :: post)%list ->
  (dom_stable_count (pr_after r) <= dom_stable_count s + S (List.length pre))%nat.
Proof.
  induction passes as [|e rest IH]; intros s pre r post; cbn [reconcile].
  - destruct pre; discriminate.
  - assert (dom_stable_count (pr_after (run_pass s e)) <= S (dom_stable_count s))%nat as Hstep.
    { rewrite run_pass_counter. destruct (dom_answer e) as [[]|]; lia. }
    destruct pre as [|r1 pre]; cbn; intros [= Hr Htail].
    + subst r. lia.
    + destruct (breaks (run_pass s e)); [destruct pre; discriminate|].
      specialize (IH _ _ _ _ Htail). lia.
Qed.

Lemma reconcile_length passes : forall s,
  (List.length (reconcile s passes) <= List.length passes)%nat.
Proof.
  induction passes as [|e rest IH]; intros s; cbn [reconcile List.length]; [lia|].
  destruct (breaks (run_pass s e)); [cbn; lia|]. specialize (IH (pr_after (run_pass s e))). lia.
Qed.

Lemma final_state_last s pre r : final_state s (pre ++ [r]) = pr_after r.
Proof.
  unfold final_state. rewrite List.map_app. cbn. apply List.last_last.
Qed.

(** X15.  A record cannot succeed in fewer than two passes: the draft is
    only saved at a stability counter of 2, and the counter grows by at
    most one per pass.  So [run_single_listing] returns [True] only when at
    least two passes started before the deadline. *)
Theorem success_needs_two_passes (config : ListingConfig) (pg : RunPage)
    (lines : list LogLine) :
  run_single_listing config pg = Ret (true, lines) ->
  (2 <= List.length (run_passes pg))%nat.
Proof.
  unfold run_single_listing.
  destruct (run_open pg); cbn; [|discriminate].
  set (passes := List.map (observe_pass config) (run_passes pg)).
  destruct (success (final_state initial_state (reconcile initial_state passes))) eqn:Hsucc;
    [intros _|discriminate].
  assert (List.length passes = List.length (run_passes pg)) as <- by apply List.length_map.
  destruct (exists_last (l := reconcile initial_state passes)) as (pre & r & Hhist).
  { intros Hnil. rewrite Hnil in Hsucc. discriminate Hsucc. }
  rewrite Hhist, final_state_last in Hsucc.
  assert (In r (reconcile initial_state passes)) as Hin
    by (rewrite Hhist; apply in_or_app; right; by left).
  destruct (reconcile_records passes initial_state r eq_refl Hin) as (s0 & e & -> & Hs0).
  pose proof (run_pass_success s0 e Hs0 Hsucc) as Hbreak.
  assert (pr_raised (run_pass s0 e) = None) as Hnone.
  { unfold breaks in Hbreak. by destruct (pr_raised (run_pass s0 e)). }
  destruct (run_pass_completed s0 e Hnone) as [Hall _].
  rewrite Hsucc in Hall. symmetry in Hall. unfold all_checks in Hall.
  apply andb_true_iff in Hall as [Hall _]. apply andb_true_iff in Hall as [_ Hdraft].
  destruct (reconcile_saving passes initial_state pre _ [] eq_refl Hhist Hdraft)
    as [Hinit|(r0 & Hr0 & Hsave)]; [discriminate Hinit|].
  destruct Hsave as (_ & _ & _ & [Hcount _] & _).
  apply in_split in Hr0 as (before & after & Hsplit).
  assert (reconcile initial_state passes = (before ++ r0 :: after)%list) as Hhist'
    by (rewrite Hhist; exact Hsplit).
  pose proof (reconcile_counter_bound _ _ _ _ _ Hhist') as Hbound. cbn in Hbound.
  pose proof (reconcile_length passes initial_state) as Hlen.
  rewrite Hhist', List.length_app in Hlen. cbn in Hlen. lia.
Qed.

(** The statement on a run of two smooth passes. *)
Lemma success_needs_two_passes_witness :
  (2 <= List.length (run_passes smooth_run))%nat.
Proof.
  apply (success_needs_two_passes avanza_config smooth_run []).
  vm_compute. reflexivity.
Defined.


(** ** [patch_dom]: what decides the result *)

Lemma required_group required patched :
  negb required || patched = true <-> (required = true -> patched = true).
Proof. destruct required, patched; cbn; intuition congruence. Qed.

Lemma patch_ok_fields f :
  PatchDom.ok f = true <->
  PatchDom.locationPatched f = true
  /\ (PatchDom.vehicleTypeRequired f = true -> PatchDom.vehicleTypePatched f = true)
  /\ (PatchDom.yearFieldRequired f = true -> PatchDom.yearFieldPatched f = true)
  /\ (PatchDom.makeRequired f = true \/ PatchDom.toyotaInputRequired f = true ->
      PatchDom.makePatched f = true \/ PatchDom.toyotaInputPatched f = true)
  /\ (PatchDom.priceRequired f = true -> PatchDom.pricePatched f = true)
  /\ (PatchDom.mileageRequired f = true -> PatchDom.mileagePatched f = true)
  /\ (PatchDom.descriptionRequired f = true -> PatchDom.descriptionPatched f = true).
Proof.
  assert (PatchDom.ok f =
            PatchDom.vehicleTypeGroupOk f && PatchDom.yearFieldGroupOk f
            && PatchDom.toyotaGroupOk f && PatchDom.priceGroupOk f
            && PatchDom.mileageGroupOk f && PatchDom.descriptionGroupOk f
            && PatchDom.locationPatched f) as ->.
  { unfold PatchDom.ok, PatchDom.legacyVehicleOk, PatchDom.legacyYearOk,
      PatchDom.modelGroupOk.
    destruct (PatchDom.vehiclePatched f), (1 <=? PatchDom.yearPatchedCount f)%nat,
      (PatchDom.vehicleTypeGroupOk f), (PatchDom.yearFieldGroupOk f),
      (PatchDom.toyotaGroupOk f); reflexivity. }
  unfold PatchDom.toyotaGroupOk, PatchDom.vehicleTypeGroupOk,
    PatchDom.yearFieldGroupOk, PatchDom.priceGroupOk, PatchDom.mileageGroupOk,
    PatchDom.descriptionGroupOk.
  rewrite !andb_true_iff, !required_group.
  destruct (PatchDom.makeRequired f), (PatchDom.toyotaInputRequired f),
    (PatchDom.makePatched f), (PatchDom.toyotaInputPatched f);
    cbn; intuition congruence.
Qed.

(** X18.  [patch_dom] answers [True] exactly when the page script has
    returned its flags and these say: the location input was patched, and
    each of vehicle type, year, price, mileage and description was patched
    if a control for it was found, and the make or the brand input was
    patched if one of the two was found.  The flags of the model field and
    of the four legacy wrappers have no part in it, and a form that is not
    rendered yet gives [False].  An exception of [page.evaluate] is passed
    on. *)
Theorem patch_dom_decides (answer : Outcome PatchDom.ScriptResult) :
  (PatchDom.patch_dom answer = Ret (true, PatchDom.DomUpdated) <->
     exists f, answer = Ret (PatchDom.Patched f)
       /\ PatchDom.locationPatched f = true
       /\ (PatchDom.vehicleTypeRequired f = true -> PatchDom.vehicleTypePatched f = true)
       /\ (PatchDom.yearFieldRequired f = true -> PatchDom.yearFieldPatched f = true)
       /\ (PatchDom.makeRequired f = true \/ PatchDom.toyotaInputRequired f = true ->
           PatchDom.makePatched f = true \/ PatchDom.toyotaInputPatched f = true)
       /\ (PatchDom.priceRequired f = true -> PatchDom.pricePatched f = true)
       /\ (PatchDom.mileageRequired f = true -> PatchDom.mileagePatched f = true)
       /\ (PatchDom.descriptionRequired f = true -> PatchDom.descriptionPatched f = true))
  /\ (forall report, PatchDom.patch_dom answer = Ret (true, report) ->
        report = PatchDom.DomUpdated)
  /\ (answer = Ret PatchDom.PageNotReady ->
      PatchDom.patch_dom answer = Ret (false, PatchDom.WaitingForForm))
  /\ (forall x, answer = Raise x -> PatchDom.patch_dom answer = Raise x).
Proof.
  split; [|split; [|split]].
  - unfold PatchDom.patch_dom. destruct answer as [[|f]|x]; cbn.
    + split; [discriminate | intros (f & ? & _); discriminate].
    + destruct (PatchDom.ok f) eqn:Hok.
      * split; [intros _|reflexivity]. exists f. split; [reflexivity|].
        by apply patch_ok_fields.
      * split; [discriminate|]. intros (f' & [= <-] & Hf).
        apply patch_ok_fields in Hf. congruence.
    + split; [discriminate | intros (f & ? & _); discriminate].
  - intros report. unfold PatchDom.patch_dom. destruct answer as [[|f]|x]; cbn;
      try discriminate. destruct (PatchDom.ok f); [by intros [= <-]|discriminate].
  - by intros ->.
  - by intros x ->.
Qed.


(** ** [normalize_cookies]: when it returns, and what it keeps *)

Section CookieExtras.
Context `{PyBuiltins}.

Lemma normalize_cookie_well_formed c item :
  normalize_cookie c = Ret item -> well_formed_cookie c.
Proof.
  unfold normalize_cookie, subscript, well_formed_cookie.
  destruct (c !! "name") as [name|]; cbn; [|discriminate].
  destruct (c !! "value") as [value|]; cbn; [|discriminate].
  destruct (c !! "domain") as [domain|]; cbn; [|discriminate].
  intros Hitem. repeat (split; [by eexists|]).
  intros Hdue. unfold with_expires, subscript in Hitem. fold (expiry_due c) in Hitem.
  rewrite Hdue in Hitem.
  destruct (c !! "expirationDate") as [v|]; cbn in Hitem; [|discriminate].
  destruct (py_float v) as [x|] eqn:Hx; cbn in Hitem; [|discriminate]. eauto.
Qed.

Lemma normalize_cookie_keys c item key :
  normalize_cookie c = Ret item -> is_Some (item !! key) -> In key host_cookie_keys.
Proof.
  intros Hitem Hkey.
  destruct (String.eqb_spec key "expires") as [->|Hexp]; [cbn; tauto|].
  destruct (String.eqb_spec key "sameSite") as [->|Hsame]; [cbn; tauto|].
  revert Hitem. unfold normalize_cookie, subscript.
  destruct (c !! "name") as [name|]; cbn; [|discriminate].
  destruct (c !! "value") as [value|]; cbn; [|discriminate].
  destruct (c !! "domain") as [domain|]; cbn; [|discriminate].
  intros Hitem.
  rewrite (with_expires_other _ _ _ key Hexp Hitem) in Hkey.
  rewrite with_same_site_other in Hkey by exact Hsame.
  rewrite !lookup_insert_string, lookup_empty in Hkey. unfold host_cookie_keys.
  destruct (String.eqb_spec key "secure") as [->|?]; [cbn; tauto|].
  destruct (String.eqb_spec key "httpOnly") as [->|?]; [cbn; tauto|].
  destruct (String.eqb_spec key "path") as [->|?]; [cbn; tauto|].
  destruct (String.eqb_spec key "domain") as [->|?]; [cbn; tauto|].
  destruct (String.eqb_spec key "value") as [->|?]; [cbn; tauto|].
  destruct (String.eqb_spec key "name") as [->|?]; [cbn; tauto|].
  destruct Hkey as [v Hv]. discriminate Hv.
Qed.

(** X20.  [normalize_cookies] returns only when every raw cookie has a
    name, a value and a domain and, where an expiry is due, an expiration
    date that [float] accepts; it then gives as many items as there are
    cookies, and the items have no entry outside the eight keys of the host
    schema: whatever else the export holds is dropped. *)
Theorem normalize_cookies_returns_only (raw_cookies normalized : list (gmap string json)) :
  normalize_cookies raw_cookies = Ret normalized ->
  Forall well_formed_cookie raw_cookies
  /\ List.length normalized = List.length raw_cookies
  /\ Forall (fun item => forall key, is_Some (item !! key) -> In key host_cookie_keys)
       normalized.
Proof.
  revert normalized. induction raw_cookies as [|c rest IH]; intros normalized; cbn.
  - intros [= <-]. repeat split; constructor.
  - destruct (normalize_cookie c) as [item|x] eqn:Hitem; cbn; [|discriminate].
    destruct (normalize_cookies rest) as [items|x]; cbn; [|discriminate].
    intros [= <-]. destruct (IH items eq_refl) as (Hwf & Hlen & Hkeys).
    split; [constructor; [by apply (normalize_cookie_well_formed c item)|exact Hwf]|].
    split; [cbn; by rewrite Hlen|].
    constructor; [|exact Hkeys]. intros key. by apply (normalize_cookie_keys c).
Qed.

(** X21.  The first raw cookie without a name, a value or a domain makes
    [normalize_cookies] raise [KeyError] for the first of these it lacks,
    whatever the cookies after it are. *)
Theorem normalize_cookies_key_error (earlier later : list (gmap string json))
    (c : gmap string json) (key : string) :
  Forall well_formed_cookie earlier ->
  head (List.filter (fun k => bool_decide (c !! k = None)) ["name"; "value"; "domain"])
  = Some key ->
  normalize_cookies (earlier ++ c :: later) = Raise (KeyError key).
Proof.
  intros Hearlier Hkey.
  assert (normalize_cookie c = Raise (KeyError key)) as Hc.
  { unfold normalize_cookie, subscript. cbn in Hkey.
    destruct (c !! "name") as [name|]; cbn in *; [|congruence].
    destruct (c !! "value") as [value|]; cbn in *; [|congruence].
    destruct (c !! "domain") as [domain|]; cbn in *; [discriminate|congruence]. }
  induction Hearlier as [|c0 rest Hc0 _ IH]; cbn.
  - by rewrite Hc.
  - destruct (normalize_cookie_returns c0 Hc0) as [item ->]. cbn. by rewrite IH.
Qed.

(** X22.  When the cookie file holds a cookie that [normalize_cookies]
    cannot take, [main] ends with that exception before any listing is
    handled. *)
Theorem main_stops_on_bad_cookies (env : MainEnv) (x : PyExc) :
  normalize_cookies (load_raw_cookies (cookies_file_content env)).1 = Raise x ->
  main env = Raise x.
Proof.
  intros Hraise. unfold main.
  destruct (load_raw_cookies (cookies_file_content env)).1 as [|c rest];
    [discriminate Hraise|].
  rewrite Hraise. reflexivity.
Qed.

End CookieExtras.

(** The statements on an exported cookie with extra entries and on a
    cookie file whose second cookie has no name. *)
Lemma normalize_cookies_returns_only_witness :
  Forall (@well_formed_cookie sample_builtins) [verbose_cookie].
Proof.
  destruct (@normalize_cookies sample_builtins [verbose_cookie]) as [items|x] eqn:Hnorm;
    [|vm_compute in Hnorm; discriminate Hnorm].
  apply (@normalize_cookies_returns_only sample_builtins [verbose_cookie] items Hnorm).
Defined.

Lemma normalize_cookies_key_error_witness :
  @normalize_cookies sample_builtins [verbose_cookie; nameless_cookie; exported_cookie]
  = Raise (KeyError "name").
Proof.
  apply (@normalize_cookies_key_error sample_builtins [verbose_cookie] [exported_cookie]
           nameless_cookie "name").
  - constructor; [|constructor].
    split; [exists (JStr "xs"); reflexivity|].
    split; [exists (JStr "42"); reflexivity|].
    split; [exists (JStr ".facebook.com"); reflexivity|].
    intros Hdue. vm_compute in Hdue. discriminate Hdue.
  - vm_compute. reflexivity.
Defined.

Lemma main_stops_on_bad_cookies_witness :
  @main sample_builtins broken_cookies_env = Raise (KeyError "name").
Proof.
  apply (@main_stops_on_bad_cookies sample_builtins broken_cookies_env).
  vm_compute. reflexivity.
Defined.
